(** * Browser session manager of shelley: [claudetool/browse/browse.go]

    A shallow embedding of the Go package [browse]: the [BrowseTools]
    struct, the session life cycle ([GetBrowserContext], [Close],
    [idleShutdown]), the console-log buffer, the screenshot registry and
    the tool entry points that use them.

    Conventions.
    - Go [int] and [time.Duration] are [Z]; slice lengths are [nat] and are
      injected with [Z.of_nat] where the source compares them with an [int].
    - Go strings are byte strings: [string] of [ascii].
    - A Go [(T, error)] result is [result T]; an [error] is its message.
    - Every method of [BrowseTools] holds [b.mux] (or the dedicated mutex of
      the field it touches) for its whole body, so a method is one atomic
      transition of the manager; interleavings of goroutines are sequences
      of such transitions.
    - What the outside world answers (does the browser start, does the file
      get written, which UUID is drawn, what time is it) is an explicit
      argument of the transition that asks. What the manager does to the
      outside world is appended to a trace of [Effect]s.
    - Calls of [log.Printf] are left out: nothing the package reads depends
      on them. *)

From Stdlib Require Import ZArith Lia Ascii String.
From stdpp Require Import base gmap strings list pretty.

(** ** Go values shared by the whole development *)

Definition error := string.

Inductive result (A : Type) : Type :=
| Ok (a : A)
| Err (e : error).
Arguments Ok {A} a.
Arguments Err {A} e.

(** [fmt.Errorf("<msg>: %w", err)] *)
Definition wrap (msg : string) (err : error) : error := msg +:+ ": " +:+ err.

(** ** Byte-string helpers ([strings] package) *)

Module Strings.

Fixpoint IndexByte_from (i : nat) (s : string) (c : ascii) : option nat :=
  match s with
  | EmptyString => None
  | String a rest =>
      if Ascii.eqb a c then Some i else IndexByte_from (S i) rest c
  end.

Definition IndexByte (s : string) (c : ascii) : option nat :=
  IndexByte_from 0 s c.

Fixpoint LastIndexByte_from (i : nat) (s : string) (c : ascii) : option nat :=
  match s with
  | EmptyString => None
  | String a rest =>
      match LastIndexByte_from (S i) rest c with
      | Some j => Some j
      | None => if Ascii.eqb a c then Some i else None
      end
  end.

Definition LastIndexByte (s : string) (c : ascii) : option nat :=
  LastIndexByte_from 0 s c.

(** [s[:n]] and [s[n:]] for [n <= len(s)] *)
Definition upto (n : nat) (s : string) : string := String.substring 0 n s.
Definition from (n : nat) (s : string) : string :=
  String.substring n (String.length s - n) s.

Definition HasPrefix (s p : string) : bool := String.prefix p s.

Definition HasSuffix (s p : string) : bool :=
  (String.length p <=? String.length s)%nat
  && String.eqb (from (String.length s - String.length p) s) p.

(** [strings.Cut(s, sep)] for a one-byte separator *)
Definition Cut (s : string) (sep : ascii) : string * string * bool :=
  match IndexByte s sep with
  | Some i => (upto i s, from (S i) s, true)
  | None => (s, ""%string, false)
  end.

Fixpoint all (p : ascii -> bool) (s : string) : bool :=
  match s with
  | EmptyString => true
  | String a rest => p a && all p rest
  end.

Fixpoint count (s : string) (c : ascii) : nat :=
  match s with
  | EmptyString => 0
  | String a rest => (if Ascii.eqb a c then 1 else 0) + count rest c
  end.

Definition byte_in (lo hi : ascii) (c : ascii) : bool :=
  (nat_of_ascii lo <=? nat_of_ascii c)%nat
  && (nat_of_ascii c <=? nat_of_ascii hi)%nat.

Definition is_digit : ascii -> bool := byte_in "0" "9".
Definition is_lower : ascii -> bool := byte_in "a" "z".
Definition is_upper : ascii -> bool := byte_in "A" "Z".

Definition lower (c : ascii) : ascii :=
  if is_upper c then ascii_of_nat (nat_of_ascii c + 32) else c.

Fixpoint ToLower (s : string) : string :=
  match s with
  | EmptyString => EmptyString
  | String a rest => String (lower a) (ToLower rest)
  end.

End Strings.

(** ** [net/url]: the part of a parsed URL that [isPort80] reads *)

Module URL.

Record t : Type := mk {
  Scheme : string;
  Opaque : string;
  User : option string;
  Host : string;
  Path : string;
  RawQuery : string;
  Fragment : string
}.

(** [validOptionalPort]: the empty string, or a colon followed by digits *)
Definition validOptionalPort (port : string) : bool :=
  match port with
  | EmptyString => true
  | String c rest => Ascii.eqb c ":" && Strings.all Strings.is_digit rest
  end.

(** [splitHostPort]: split at the last colon when what follows is a valid
    port, then strip the brackets of an IPv6 literal *)
Definition splitHostPort (hostPort : string) : string * string :=
  let '(host, port) :=
    match Strings.LastIndexByte hostPort ":" with
    | Some colon =>
        if validOptionalPort (Strings.from colon hostPort)
        then (Strings.upto colon hostPort, Strings.from (S colon) hostPort)
        else (hostPort, ""%string)
    | None => (hostPort, ""%string)
    end in
  let host :=
    if Strings.HasPrefix host "[" && Strings.HasSuffix host "]"
    then String.substring 1 (String.length host - 2) host
    else host in
  (host, port).

(** The [Port] method of [URL]: the port of [u.Host] without the colon,
    or the empty string *)
Definition Port (u : t) : string := snd (splitHostPort (Host u)).

End URL.

(** ** [time]: durations *)

Definition Duration := Z.

Module Time.
Definition Nanosecond : Duration := 1%Z.
Definition Microsecond : Duration := (1000 * Nanosecond)%Z.
Definition Millisecond : Duration := (1000 * Microsecond)%Z.
Definition Second : Duration := (1000 * Millisecond)%Z.
Definition Minute : Duration := (60 * Second)%Z.
Definition Hour : Duration := (60 * Minute)%Z.
End Time.

(** [runtime.EventConsoleAPICalled] of cdproto; the package never looks
    inside an event. *)
Record EventConsoleAPICalled : Type := mkEvent {
  ev_Type : string;
  ev_Args : list string;
  ev_Timestamp : Z
}.

(** ** Library functions the package calls

    [url.Parse], [time.ParseDuration] and [json.MarshalIndent] belong to the
    Go standard library and [imageutil.ResizeImage] to a sibling package.
    The package is verified against any implementation of them; a fact
    about one of them that a statement relies on is a hypothesis of that
    statement. [GoModel] further down is a concrete instance on which the
    statements are run. *)

Class Library : Type := {
  url_Parse : string -> result URL.t;
  time_ParseDuration : string -> result Duration;
  json_MarshalIndent : list EventConsoleAPICalled -> result string;
  imageutil_ResizeImage :
    list Byte.byte -> Z -> result (list Byte.byte * string * bool)
}.

(** ** [context]: cancellation trees

    A context is either a root or derived from a parent together with a
    cancel function; the cancel function is identified with the number of
    the context it cancels. A context is done as soon as the cancel function
    of the context itself or of one of its ancestors has been called. *)

Inductive context : Type :=
| Background
| WithCancel (id : nat) (parent : context).

Definition CancelFunc := nat.
Definition Timer := nat.

Fixpoint ids (c : context) : list nat :=
  match c with
  | Background => []
  | WithCancel i parent => i :: ids parent
  end.

Fixpoint max_id (c : context) : nat :=
  match c with
  | Background => 0
  | WithCancel i parent => Nat.max i (max_id parent)
  end.

(** ** [chromedp] and the operating system, as seen from the package *)

Inductive Action : Type :=
| EmulateViewport (width height : Z)
| Navigate (url : string)
| WaitReady (sel : string)
| Screenshot (sel : string)
| CaptureScreenshot.

Inductive Effect : Type :=
| ENewExecAllocator (parent : context) (id : nat)
| ENewContext (parent : context) (id : nat)
| EWithTimeout (parent : context) (d : Duration) (id : nat)
| EListenTarget (c : context)
| ERun (c : context) (actions : list Action) (err : option error)
| ECancel (f : CancelFunc)
| EAfterFunc (d : Duration) (t : Timer)
| EStop (t : Timer)
| EWriteFile (path : string) (data : list Byte.byte) (err : option error).

Global Instance context_eq_dec : EqDecision context.
Proof. solve_decision. Defined.
Global Instance Action_eq_dec : EqDecision Action.
Proof. solve_decision. Defined.
Global Instance byte_eq_dec : EqDecision Byte.byte.
Proof. intros x y. destruct (Byte.byte_eq_dec x y); [left | right]; done. Defined.
Global Instance Effect_eq_dec : EqDecision Effect.
Proof. unfold error, Duration, CancelFunc, Timer. solve_decision. Defined.

(** [next] is the first number not yet given to a context or a timer. *)
Record World : Type := mkWorld {
  next : nat;
  trace : list Effect
}.

(** The cancel function [f] has been called. *)
Definition cancel_called (w : World) (f : CancelFunc) : Prop :=
  ECancel f ∈ trace w.

(** The context [c] is done. *)
Definition done_ctx (w : World) (c : context) : Prop :=
  Exists (cancel_called w) (ids c).

Global Instance cancel_called_dec w f : Decision (cancel_called w f).
Proof. unfold cancel_called. apply _. Defined.
Global Instance done_ctx_dec w c : Decision (done_ctx w c).
Proof. unfold done_ctx. apply _. Defined.

(** The allocator and browser contexts the manager has created so far. *)
Definition created (w : World) : list context :=
  omap (λ e, match e with
             | ENewExecAllocator p i | ENewContext p i => Some (WithCancel i p)
             | _ => None
             end) (trace w).

(** ** The manager *)

Definition ScreenshotDir : string := "/tmp/shelley-screenshots".

Definition DefaultIdleTimeout : Duration := (30 * Time.Minute)%Z.

Record BrowseTools : Type := mkBrowseTools {
  ctx : context;
  allocCtx : option context;
  allocCancel : option CancelFunc;
  browserCtx : option context;
  browserCtxCancel : option CancelFunc;
  screenshots : gmap string Z;
  consoleLogs : list EventConsoleAPICalled;
  maxConsoleLogs : Z;
  idleTimeout : Duration;
  idleTimer : option Timer;
  maxImageDimension : Z
}.

Definition set_allocCtx (v : option context) (b : BrowseTools) : BrowseTools :=
  mkBrowseTools (ctx b) v (allocCancel b) (browserCtx b) (browserCtxCancel b)
    (screenshots b) (consoleLogs b) (maxConsoleLogs b) (idleTimeout b)
    (idleTimer b) (maxImageDimension b).
Definition set_allocCancel (v : option CancelFunc) (b : BrowseTools) : BrowseTools :=
  mkBrowseTools (ctx b) (allocCtx b) v (browserCtx b) (browserCtxCancel b)
    (screenshots b) (consoleLogs b) (maxConsoleLogs b) (idleTimeout b)
    (idleTimer b) (maxImageDimension b).
Definition set_browserCtx (v : option context) (b : BrowseTools) : BrowseTools :=
  mkBrowseTools (ctx b) (allocCtx b) (allocCancel b) v (browserCtxCancel b)
    (screenshots b) (consoleLogs b) (maxConsoleLogs b) (idleTimeout b)
    (idleTimer b) (maxImageDimension b).
Definition set_browserCtxCancel (v : option CancelFunc) (b : BrowseTools) : BrowseTools :=
  mkBrowseTools (ctx b) (allocCtx b) (allocCancel b) (browserCtx b) v
    (screenshots b) (consoleLogs b) (maxConsoleLogs b) (idleTimeout b)
    (idleTimer b) (maxImageDimension b).
Definition set_screenshots (v : gmap string Z) (b : BrowseTools) : BrowseTools :=
  mkBrowseTools (ctx b) (allocCtx b) (allocCancel b) (browserCtx b)
    (browserCtxCancel b) v (consoleLogs b) (maxConsoleLogs b) (idleTimeout b)
    (idleTimer b) (maxImageDimension b).
Definition set_consoleLogs (v : list EventConsoleAPICalled) (b : BrowseTools) : BrowseTools :=
  mkBrowseTools (ctx b) (allocCtx b) (allocCancel b) (browserCtx b)
    (browserCtxCancel b) (screenshots b) v (maxConsoleLogs b) (idleTimeout b)
    (idleTimer b) (maxImageDimension b).
Definition set_idleTimer (v : option Timer) (b : BrowseTools) : BrowseTools :=
  mkBrowseTools (ctx b) (allocCtx b) (allocCancel b) (browserCtx b)
    (browserCtxCancel b) (screenshots b) (consoleLogs b) (maxConsoleLogs b)
    (idleTimeout b) v (maxImageDimension b).

(** [NewBrowseTools]; the best-effort [os.MkdirAll] only logs on failure
    and does not influence the struct. *)
Definition NewBrowseTools (c : context) (idle : Duration) (maxDim : Z) : BrowseTools :=
  let idle := if (idle <=? 0)%Z then DefaultIdleTimeout else idle in
  {| ctx := c;
     allocCtx := None; allocCancel := None;
     browserCtx := None; browserCtxCancel := None;
     screenshots := ∅;
     consoleLogs := [];
     maxConsoleLogs := 100;
     idleTimeout := idle;
     idleTimer := None;
     maxImageDimension := maxDim |}.

(** ** Methods as state transitions

    A computation reads and updates the manager and the world, and either
    returns a value or panics ([None]: a slice expression out of range). *)

Record State : Type := mkState {
  tools : BrowseTools;
  world : World
}.

Definition M (A : Type) : Type := State -> option A * State.

Global Instance M_ret : MRet M := λ A a s, (Some a, s).
Global Instance M_bind : MBind M :=
  λ A B f m s,
    match m s with
    | (Some a, s') => f a s'
    | (None, s') => (None, s')
    end.

Definition panic {A : Type} : M A := λ s, (None, s).

Definition getb : M BrowseTools := λ s, (Some (tools s), s).

Definition setb (f : BrowseTools -> BrowseTools) : M unit :=
  λ s, (Some tt, mkState (f (tools s)) (world s)).

Definition emit (e : Effect) : M unit :=
  λ s, (Some tt,
        mkState (tools s) (mkWorld (next (world s)) (trace (world s) ++ [e]))).

Definition fresh : M nat :=
  λ s, (Some (next (world s)),
        mkState (tools s) (mkWorld (S (next (world s))) (trace (world s)))).

Definition when_some {A : Type} (o : option A) (k : A -> M unit) : M unit :=
  match o with
  | Some a => k a
  | None => mret tt
  end.

(** [l[i:]], which panics unless [0 <= i <= len(l)] *)
Definition slice_from {A : Type} (l : list A) (i : Z) : M (list A) :=
  if ((0 <=? i) && (i <=? Z.of_nat (length l)))%Z
  then mret (drop (Z.to_nat i) l)
  else panic.

(** *** The calls into [context], [time], [chromedp] and [os] *)

Definition chromedp_NewExecAllocator (parent : context) : M (context * CancelFunc) :=
  i ← fresh; emit (ENewExecAllocator parent i);; mret (WithCancel i parent, i).

Definition chromedp_NewContext (parent : context) : M (context * CancelFunc) :=
  i ← fresh; emit (ENewContext parent i);; mret (WithCancel i parent, i).

Definition context_WithTimeout (parent : context) (d : Duration) : M (context * CancelFunc) :=
  i ← fresh; emit (EWithTimeout parent d i);; mret (WithCancel i parent, i).

Definition chromedp_ListenTarget (c : context) : M unit := emit (EListenTarget c).

(** [chromedp.Run]; [answer] is what the browser answers. *)
Definition chromedp_Run (c : context) (actions : list Action)
    (answer : option error) : M (option error) :=
  emit (ERun c actions answer);; mret answer.

Definition call (f : CancelFunc) : M unit := emit (ECancel f).

Definition time_AfterFunc (d : Duration) : M Timer :=
  t ← fresh; emit (EAfterFunc d t);; mret t.

Definition timer_Stop (t : Timer) : M unit := emit (EStop t).

(** [os.WriteFile]; [answer] is what the file system answers. *)
Definition os_WriteFile (path : string) (data : list Byte.byte)
    (answer : option error) : M (option error) :=
  emit (EWriteFile path data answer);; mret answer.

(** *** Session life cycle *)

(** What the browser answers during a startup. *)
Record Startup : Type := mkStartup {
  startBrowser : option error;
  setViewport : option error
}.

Definition resetIdleTimerLocked : M unit :=
  b ← getb;
  when_some (idleTimer b) timer_Stop;;
  b ← getb;
  t ← time_AfterFunc (idleTimeout b);
  setb (set_idleTimer (Some t)).

(** The last line returns [b.browserCtx], which was assigned [browserCtx]
    four lines earlier. *)
Definition GetBrowserContext (o : Startup) : M (result context) :=
  b ← getb;
  match browserCtx b with
  | Some c =>
      resetIdleTimerLocked;;
      mret (Ok c)
  | None =>
      '(allocCtx', allocCancel') ← chromedp_NewExecAllocator (ctx b);
      '(browserCtx', browserCancel) ← chromedp_NewContext allocCtx';
      chromedp_ListenTarget browserCtx';;
      err ← chromedp_Run browserCtx' [] (startBrowser o);
      match err with
      | Some e =>
          call allocCancel';;
          mret (Err (wrap "failed to start browser (please apt get chromium or equivalent)" e))
      | None =>
          err ← chromedp_Run browserCtx' [EmulateViewport 1280 720] (setViewport o);
          match err with
          | Some e =>
              call browserCancel;;
              call allocCancel';;
              mret (Err (wrap "failed to set default viewport" e))
          | None =>
              setb (set_allocCtx (Some allocCtx'));;
              setb (set_allocCancel (Some allocCancel'));;
              setb (set_browserCtx (Some browserCtx'));;
              setb (set_browserCtxCancel (Some browserCancel));;
              resetIdleTimerLocked;;
              mret (Ok browserCtx')
          end
      end
  end.

Definition closeBrowserLocked : M unit :=
  b ← getb;
  when_some (idleTimer b) (λ t, timer_Stop t;; setb (set_idleTimer None));;
  b ← getb;
  when_some (browserCtxCancel b) (λ f, call f;; setb (set_browserCtxCancel None));;
  b ← getb;
  when_some (allocCancel b) (λ f, call f;; setb (set_allocCancel None));;
  setb (set_browserCtx None);;
  setb (set_allocCtx None).

Definition idleShutdown : M unit :=
  b ← getb;
  match browserCtx b with
  | None => mret tt
  | Some _ => closeBrowserLocked
  end.

Definition Close : M unit := closeBrowserLocked.

(** *** Console-log buffer *)

(** [captureConsoleLog]: append, then keep the last [maxConsoleLogs]. *)
Definition captureConsoleLog (e : EventConsoleAPICalled) : M unit :=
  b ← getb;
  setb (set_consoleLogs (consoleLogs b ++ [e]));;
  b ← getb;
  if (maxConsoleLogs b <? Z.of_nat (length (consoleLogs b)))%Z
  then
    logs ← slice_from (consoleLogs b)
             (Z.of_nat (length (consoleLogs b)) - maxConsoleLogs b);
    setb (set_consoleLogs logs)
  else mret tt.

(** The listener delivers a sequence of events. *)
Fixpoint captureAll (es : list EventConsoleAPICalled) : M unit :=
  match es with
  | [] => mret tt
  | e :: es' => captureConsoleLog e;; captureAll es'
  end.

(** The locked block of [recentConsoleLogsRun] (lines 693 to 700): a copy
    of the last [limit] stored events. *)
Definition recentConsoleLogs (limit : Z) : M (list EventConsoleAPICalled) :=
  b ← getb;
  let start :=
    if (limit <? Z.of_nat (length (consoleLogs b)))%Z
    then (Z.of_nat (length (consoleLogs b)) - limit)%Z
    else 0%Z in
  tail ← slice_from (consoleLogs b) start;
  mret ([] ++ tail).

(** The locked block of [clearConsoleLogsRun] (lines 748 to 751). *)
Definition clearConsoleLogs : M nat :=
  b ← getb;
  let logCount := length (consoleLogs b) in
  setb (set_consoleLogs []);;
  mret logCount.

(** *** Screenshot registry *)

Module UUID.

(** [uuid.UUID] is [[16]byte]; a position past the end of the list reads
    as zero. *)
Definition t := list Byte.byte.

Definition hexdigit (n : nat) : ascii :=
  nth n (list_ascii_of_string "0123456789abcdef") "0"%char.

Definition hex (b : Byte.byte) : string :=
  String (hexdigit (Byte.to_nat b / 16))
    (String (hexdigit (Byte.to_nat b mod 16)) EmptyString).

Definition hex_range (u : t) (lo n : nat) : string :=
  foldr (λ i acc, hex (nth i u Byte.x00) +:+ acc) ""%string (seq lo n).

(** [xxxxxxxx-xxxx-xxxx-xxxx-xxxxxxxxxxxx] *)
Definition to_string (u : t) : string :=
  hex_range u 0 4 +:+ "-" +:+ hex_range u 4 2 +:+ "-" +:+ hex_range u 6 2
    +:+ "-" +:+ hex_range u 8 2 +:+ "-" +:+ hex_range u 10 6.

End UUID.

(** [filepath.Join(dir, name)] for a clean [dir] and a [name] that is a
    single path element, which is how the package calls it. *)
Definition filepath_Join (dir name : string) : string := dir +:+ "/" +:+ name.

(** What the outside world answers during [SaveScreenshot]. *)
Record Saving : Type := mkSaving {
  uuid_New : UUID.t;
  writeFile : option error;
  time_Now : Z
}.

Definition SaveScreenshot (o : Saving) (data : list Byte.byte) : M string :=
  let id := UUID.to_string (uuid_New o) in
  let filePath := filepath_Join ScreenshotDir (id +:+ ".png") in
  err ← os_WriteFile filePath data (writeFile o);
  match err with
  | Some _ => mret ""%string
  | None =>
      b ← getb;
      setb (set_screenshots (<[id := time_Now o]> (screenshots b)));;
      mret id
  end.

Definition GetScreenshotPath (id : string) : string :=
  filepath_Join ScreenshotDir (id +:+ ".png").

(** ** Tool entry points *)

Inductive Content : Type :=
| Text (s : string)
| Media (mediaType : string) (data : list Byte.byte).

(** The display descriptor of a screenshot; its [url] entry is
    ["/api/read?path="] followed by the query-escaped [path]. *)
Record Display : Type := mkDisplay {
  d_type : string;
  d_id : string;
  d_path : string;
  d_selector : string
}.

Record ToolOut : Type := mkToolOut {
  LLMContent : list Content;
  ToolDisplay : option Display;
  ToolError : option error
}.

Definition ErrorToolOut (err : error) : ToolOut := mkToolOut [] None (Some err).
Definition ErrorfToolOut (msg : string) (err : error) : ToolOut :=
  ErrorToolOut (wrap msg err).
Definition TextContent (s : string) : list Content := [Text s].
Definition TextOut (s : string) : ToolOut := mkToolOut (TextContent s) None None.

Record navigateInput : Type := mkNavigateInput {
  nav_URL : string;
  nav_Timeout : string
}.

Record screenshotInput : Type := mkScreenshotInput {
  shot_Selector : string;
  shot_Timeout : string
}.

Record recentConsoleLogsInput : Type := mkRecentConsoleLogsInput {
  Limit : Z
}.

(** What the outside world answers during one tool call. *)
Record Answers : Type := mkAnswers {
  startup : Startup;
  run : option error;
  captured : list Byte.byte;
  saving : Saving
}.

Definition port80_message : error :=
  "port 80 is not the port you're looking for--port 80 is the main sketch server".

Section Tools.

Context {lib : Library}.

Definition isPort80 (urlStr : string) : bool :=
  match url_Parse urlStr with
  | Err _ => false
  | Ok parsedURL =>
      let port := URL.Port parsedURL in
      String.eqb port "80"
      || (String.eqb port "" && String.eqb (URL.Scheme parsedURL) "http")
  end.

Definition parseTimeout (timeout : string) : Duration :=
  match time_ParseDuration timeout with
  | Err _ => (15 * Time.Second)%Z
  | Ok dur => dur
  end.

(** In every entry point [m] is the raw input after [json.Unmarshal]. *)
Definition navigateRun (o : Answers) (m : result navigateInput) : M ToolOut :=
  match m with
  | Err err => mret (ErrorfToolOut "invalid input" err)
  | Ok input =>
      if isPort80 (nav_URL input)
      then mret (ErrorToolOut port80_message)
      else
        r ← GetBrowserContext (startup o);
        match r with
        | Err err => mret (ErrorToolOut err)
        | Ok browserCtx' =>
            '(timeoutCtx, cancel) ←
              context_WithTimeout browserCtx' (parseTimeout (nav_Timeout input));
            err ← chromedp_Run timeoutCtx
                    [Navigate (nav_URL input); WaitReady "body"] (run o);
            call cancel;;
            match err with
            | Some e => mret (ErrorToolOut e)
            | None => mret (TextOut "done")
            end
        end
  end.

(** The text of a successful [recentConsoleLogsRun]. *)
Definition recentLogsText (logs : list EventConsoleAPICalled) (logData : string) : string :=
  "Retrieved " +:+ pretty (length logs) +:+ " console log entries:

" +:+ (if decide (length logs = 0) then "No console logs captured." else logData).

Definition recentConsoleLogsRun (o : Answers)
    (m : result recentConsoleLogsInput) : M ToolOut :=
  match m with
  | Err err => mret (ErrorfToolOut "invalid input" err)
  | Ok input =>
      r ← GetBrowserContext (startup o);
      match r with
      | Err err => mret (ErrorToolOut err)
      | Ok _ =>
          let limit := if (0 <? Limit input)%Z then Limit input else 100%Z in
          logs ← recentConsoleLogs limit;
          match json_MarshalIndent logs with
          | Err err => mret (ErrorfToolOut "failed to serialize logs" err)
          | Ok logData => mret (TextOut (recentLogsText logs logData))
          end
      end
  end.

Definition clearedText (logCount : nat) : string :=
  "Cleared " +:+ pretty logCount +:+ " console log entries.".

Definition clearConsoleLogsRun (o : Answers) (m : result unit) : M ToolOut :=
  match m with
  | Err err => mret (ErrorfToolOut "invalid input" err)
  | Ok _ =>
      r ← GetBrowserContext (startup o);
      match r with
      | Err err => mret (ErrorToolOut err)
      | Ok _ =>
          logCount ← clearConsoleLogs;
          mret (TextOut (clearedText logCount))
      end
  end.

Definition screenshotRun (o : Answers) (m : result screenshotInput) : M ToolOut :=
  match m with
  | Err err => mret (ErrorfToolOut "invalid input" err)
  | Ok input =>
      r ← GetBrowserContext (startup o);
      match r with
      | Err err => mret (ErrorToolOut err)
      | Ok browserCtx' =>
          '(timeoutCtx, cancel) ←
            context_WithTimeout browserCtx' (parseTimeout (shot_Timeout input));
          let actions :=
            if negb (String.eqb (shot_Selector input) "")
            then [WaitReady (shot_Selector input); Screenshot (shot_Selector input)]
            else [CaptureScreenshot] in
          err ← chromedp_Run timeoutCtx actions (run o);
          match err with
          | Some e => call cancel;; mret (ErrorToolOut e)
          | None =>
              let buf := captured o in
              id ← SaveScreenshot (saving o) buf;
              if String.eqb id ""
              then call cancel;; mret (ErrorToolOut "failed to save screenshot")
              else
                let screenshotPath := GetScreenshotPath id in
                b ← getb;
                let resized :=
                  if (0 <? maxImageDimension b)%Z
                  then imageutil_ResizeImage buf (maxImageDimension b)
                  else Ok (buf, "png"%string, false) in
                call cancel;;
                match resized with
                | Err e => mret (ErrorToolOut (wrap "failed to resize screenshot" e))
                | Ok (imageData, format, resized) =>
                    let description :=
                      "Screenshot taken (saved as " +:+ screenshotPath +:+ ")"
                      +:+ (if resized then " [resized]" else "") in
                    mret (mkToolOut
                            [Text description; Media ("image/" +:+ format) imageData]
                            (Some (mkDisplay "screenshot" id screenshotPath
                                     (shot_Selector input)))
                            None)
                end
          end
      end
  end.

End Tools.

(** ** A concrete instance of the library

    [GoModel] follows the grammar of the Go functions closely enough to run
    the package on real inputs.
    - [ParseDuration] follows [time.ParseDuration]: sign, a sequence of
      decimal numbers with optional fraction and a unit each, overflow
      checks on unsigned 64-bit sums. The contribution of a fraction is
      computed exactly where Go multiplies in binary floating point.
      Messages of errors are shortened.
    - [Parse] follows [url.Parse]: control bytes, fragment, scheme, query,
      opaque and relative forms, authority, userinfo, bracketed hosts and
      the check of the port. Validation of percent escapes and of the bytes
      allowed in a host or in userinfo is left out, so [Parse] accepts some
      strings that Go rejects. Messages of errors are shortened.
    - [MarshalIndent] and [ResizeImage] are stand-ins: a fixed text per
      list length, and the answer for an image that already fits. *)

Module GoModel.

Import Strings.

Definition digit_val (c : ascii) : Z := Z.of_nat (nat_of_ascii c - 48).

Definition two63 : Z := (2 ^ 63)%Z.
Definition two64 : Z := (2 ^ 64)%Z.

Fixpoint leadingInt (s : string) (x : Z) : option (Z * string) :=
  match s with
  | EmptyString => Some (x, s)
  | String c rest =>
      if is_digit c then
        if (x >? two63 / 10)%Z then None
        else
          let x' := (x * 10 + digit_val c)%Z in
          if (x' >? two63)%Z then None else leadingInt rest x'
      else Some (x, s)
  end.

Fixpoint leadingFraction (s : string) (x scale : Z) (overflow : bool)
    : Z * Z * string :=
  match s with
  | EmptyString => (x, scale, s)
  | String c rest =>
      if is_digit c then
        if overflow then leadingFraction rest x scale true
        else if (x >? (two63 - 1) / 10)%Z then leadingFraction rest x scale true
        else
          let y := (x * 10 + digit_val c)%Z in
          if (y >? two63)%Z then leadingFraction rest x scale true
          else leadingFraction rest y (scale * 10)%Z false
      else (x, scale, s)
  end.

Definition micro : string := String (ascii_of_nat 194) (String (ascii_of_nat 181) "s").
Definition mu : string := String (ascii_of_nat 206) (String (ascii_of_nat 188) "s").

Definition unitMap (u : string) : option Z :=
  if String.eqb u "ns" then Some Time.Nanosecond
  else if String.eqb u "us" then Some Time.Microsecond
  else if String.eqb u micro then Some Time.Microsecond
  else if String.eqb u mu then Some Time.Microsecond
  else if String.eqb u "ms" then Some Time.Millisecond
  else if String.eqb u "s" then Some Time.Second
  else if String.eqb u "m" then Some Time.Minute
  else if String.eqb u "h" then Some Time.Hour
  else None.

Definition starts_number (c : ascii) : bool := Ascii.eqb c "." || is_digit c.

Fixpoint unit_len (s : string) : nat :=
  match s with
  | EmptyString => 0
  | String c rest => if starts_number c then 0 else S (unit_len rest)
  end.

(** One turn of the loop per number-unit pair; [fuel] bounds the turns by
    the length of the input, each turn consuming at least one byte. *)
Fixpoint pairs (fuel : nat) (s : string) (d : Z) : option Z :=
  match fuel with
  | 0 => match s with EmptyString => Some d | _ => None end
  | S fuel' =>
      match s with
      | EmptyString => Some d
      | String c _ =>
          if negb (starts_number c) then None
          else
            match leadingInt s 0 with
            | None => None
            | Some (v, s1) =>
                let pre := negb (String.length s =? String.length s1)%nat in
                let '(f, scale, s2, post) :=
                  match s1 with
                  | String "."%char s1' =>
                      let '(f, scale, s2) := leadingFraction s1' 0 1 false in
                      (f, scale, s2,
                       negb (String.length s1' =? String.length s2)%nat)
                  | _ => (0%Z, 1%Z, s1, false)
                  end in
                if negb pre && negb post then None
                else
                  let i := unit_len s2 in
                  if (i =? 0)%nat then None
                  else
                    match unitMap (upto i s2) with
                    | None => None
                    | Some unit =>
                        if (v >? two63 / unit)%Z then None
                        else
                          let v1 := (v * unit)%Z in
                          let v2 :=
                            if (f >? 0)%Z then (v1 + f * unit / scale)%Z else v1 in
                          if (v2 >? two63)%Z then None
                          else
                            let d' := ((d + v2) mod two64)%Z in
                            if (d' >? two63)%Z then None
                            else pairs fuel' (from i s2) d'
                    end
            end
      end
  end.

Definition invalid_duration : error := "time: invalid duration".

Definition ParseDuration (orig : string) : result Duration :=
  let '(neg, s) :=
    match orig with
    | String "-"%char rest => (true, rest)
    | String "+"%char rest => (false, rest)
    | _ => (false, orig)
    end in
  if String.eqb s "0" then Ok 0%Z
  else if String.eqb s "" then Err invalid_duration
  else
    match pairs (String.length s) s 0 with
    | None => Err invalid_duration
    | Some d =>
        if neg then Ok (- d)%Z
        else if (d >? two63 - 1)%Z then Err invalid_duration
        else Ok d
    end.

Definition is_ctl (c : ascii) : bool :=
  (nat_of_ascii c <? 32)%nat || (nat_of_ascii c =? 127)%nat.

Definition is_letter (c : ascii) : bool := is_lower c || is_upper c.

(** [getScheme]: [(scheme, rest)], or an error for a leading colon *)
Fixpoint getScheme_from (i : nat) (s rawURL : string) : result (string * string) :=
  match s with
  | EmptyString => Ok (""%string, rawURL)
  | String c rest =>
      if is_letter c then getScheme_from (S i) rest rawURL
      else if is_digit c || Ascii.eqb c "+" || Ascii.eqb c "-" || Ascii.eqb c "."
      then match i with
           | 0 => Ok (""%string, rawURL)
           | _ => getScheme_from (S i) rest rawURL
           end
      else if Ascii.eqb c ":"
      then match i with
           | 0 => Err "missing protocol scheme"
           | _ => Ok (upto i rawURL, from (S i) rawURL)
           end
      else Ok (""%string, rawURL)
  end.

Definition getScheme (rawURL : string) : result (string * string) :=
  getScheme_from 0 rawURL rawURL.

Definition parseHost (host : string) : result string :=
  if HasPrefix host "[" then
    match LastIndexByte host "]" with
    | None => Err "missing ']' in host"
    | Some i =>
        if URL.validOptionalPort (from (S i) host) then Ok host
        else Err "invalid port after host"
    end
  else
    match LastIndexByte host ":" with
    | Some i =>
        if URL.validOptionalPort (from i host) then Ok host
        else Err "invalid port after host"
    | None => Ok host
    end.

Definition parseAuthority (authority : string) : result (option string * string) :=
  match LastIndexByte authority "@" with
  | None =>
      match parseHost authority with
      | Ok host => Ok (None, host)
      | Err e => Err e
      end
  | Some i =>
      match parseHost (from (S i) authority) with
      | Ok host => Ok (Some (upto i authority), host)
      | Err e => Err e
      end
  end.

Definition parse (rawURL : string) : result URL.t :=
  if negb (all (λ c, negb (is_ctl c)) rawURL)
  then Err "net/url: invalid control character in URL"
  else if String.eqb rawURL "*" then Ok (URL.mk "" "" None "" "*" "" "")
  else
    match getScheme rawURL with
    | Err e => Err e
    | Ok (scheme, rest) =>
        let scheme := ToLower scheme in
        let '(rest, rawQuery) :=
          if HasSuffix rest "?" && (count rest "?" =? 1)%nat
          then (upto (String.length rest - 1) rest, ""%string)
          else let '(r, q, _) := Cut rest "?" in (r, q) in
        if negb (HasPrefix rest "/") && negb (String.eqb scheme "")
        then Ok (URL.mk scheme rest None "" "" rawQuery "")
        else if negb (HasPrefix rest "/")
                && (let '(segment, _, _) := Cut rest "/" in
                    match IndexByte segment ":" with Some _ => true | None => false end)
        then Err "first path segment in URL cannot contain colon"
        else if (negb (String.eqb scheme "") || negb (HasPrefix rest "///"))
                && HasPrefix rest "//"
        then
          let authority := from 2 rest in
          let '(authority, rest) :=
            match IndexByte authority "/" with
            | Some i => (upto i authority, from i authority)
            | None => (authority, ""%string)
            end in
          match parseAuthority authority with
          | Err e => Err e
          | Ok (user, host) => Ok (URL.mk scheme "" user host rest rawQuery "")
          end
        else Ok (URL.mk scheme "" None "" rest rawQuery "")
    end.

Definition Parse (rawURL : string) : result URL.t :=
  let '(u, frag, _) := Cut rawURL "#" in
  match parse u with
  | Err e => Err ("parse: " +:+ e)
  | Ok url =>
      Ok (URL.mk (URL.Scheme url) (URL.Opaque url) (URL.User url) (URL.Host url)
            (URL.Path url) (URL.RawQuery url) frag)
  end.

Definition MarshalIndent (logs : list EventConsoleAPICalled) : result string :=
  Ok ("[" +:+ pretty (length logs) +:+ " events]").

Definition ResizeImage (data : list Byte.byte) (maxDimension : Z)
    : result (list Byte.byte * string * bool) :=
  Ok (data, "png"%string, false).

Definition library : Library :=
  {| url_Parse := Parse;
     time_ParseDuration := ParseDuration;
     json_MarshalIndent := MarshalIndent;
     imageutil_ResizeImage := ResizeImage |}.

End GoModel.

(** ** Call sequences against the session manager *)

Inductive Call : Type :=
| CallGetBrowserContext (o : Startup)
| CallClose
| CallIdleShutdown.

Definition step (c : Call) (s : State) : State :=
  match c with
  | CallGetBrowserContext o => snd (GetBrowserContext o s)
  | CallClose => snd (Close s)
  | CallIdleShutdown => snd (idleShutdown s)
  end.

Definition run_calls (cs : list Call) (s : State) : State :=
  foldl (λ s c, step c s) s cs.

(** The manager right after [NewBrowseTools]; numbers handed out later are
    above every number that occurs in the context it was given. *)
Definition init (c : context) (idle : Duration) (maxDim : Z) : State :=
  mkState (NewBrowseTools c idle maxDim) (mkWorld (S (max_id c)) []).

(** No session: the four fields are nil. *)
Definition session_absent (b : BrowseTools) : Prop :=
  allocCtx b = None ∧ allocCancel b = None
  ∧ browserCtx b = None ∧ browserCtxCancel b = None.

(** A session: allocator [i] derived from [b.ctx], browser context [j]
    derived from the allocator, each stored with its own cancel function. *)
Definition session_of (b : BrowseTools) (i j : nat) : Prop :=
  allocCtx b = Some (WithCancel i (ctx b)) ∧ allocCancel b = Some i
  ∧ browserCtx b = Some (WithCancel j (WithCancel i (ctx b)))
  ∧ browserCtxCancel b = Some j.

(** The session is fully initialised. *)
Definition session_full (b : BrowseTools) : Prop := ∃ i j, session_of b i j.

(** An optional value as a list of at most one element. *)
Definition olist {A : Type} (o : option A) : list A :=
  match o with
  | Some a => [a]
  | None => []
  end.

(** Unfolds the plumbing of [M] and of the library calls. *)
Ltac run_M :=
  cbv beta iota zeta delta
    [mbind mret M_bind M_ret getb setb emit fresh when_some panic
     chromedp_NewExecAllocator chromedp_NewContext context_WithTimeout
     chromedp_ListenTarget chromedp_Run call time_AfterFunc timer_Stop
     os_WriteFile tools world next trace].

(** Splits a state into the fields of the manager and of the world. *)
Ltac open_state s :=
  let b := fresh "b" in
  let n := fresh "n" in
  let tr := fresh "tr" in
  destruct s as [b [n tr]];
  destruct b as [c0 ac af bc bf sh cl mx it tm md].

(** The effects of a startup attempt up to the start of the browser. *)
Definition attempt_trace (c0 : context) (n : nat) (o : Startup) : list Effect :=
  [ENewExecAllocator c0 n;
   ENewContext (WithCancel n c0) (S n);
   EListenTarget (WithCancel (S n) (WithCancel n c0));
   ERun (WithCancel (S n) (WithCancel n c0)) [] (startBrowser o)].

(** The effect of the viewport step of the same attempt. *)
Definition viewport_effect (c0 : context) (n : nat) (o : Startup) : Effect :=
  ERun (WithCancel (S n) (WithCancel n c0)) [EmulateViewport 1280 720] (setViewport o).

(** What holds of the manager and the world between two calls; [root] is
    the context the manager was created with. *)
Record session_inv (root : context) (s : State) : Prop := mk_session_inv {
  inv_ctx : ctx (tools s) = root;
  inv_next : max_id root < next (world s);
  inv_shape :
    session_absent (tools s)
    ∨ ∃ i j, session_of (tools s) i j
        ∧ max_id root < i < next (world s) ∧ max_id root < j < next (world s)
        ∧ ¬ cancel_called (world s) i ∧ ¬ cancel_called (world s) j
        ∧ WithCancel i root ∈ created (world s)
        ∧ WithCancel j (WithCancel i root) ∈ created (world s);
  inv_cancel :
    ∀ f, cancel_called (world s) f -> max_id root < f < next (world s);
  inv_created :
    ∀ c, c ∈ created (world s) ->
      done_ctx (world s) c
      ∨ allocCtx (tools s) = Some c ∨ browserCtx (tools s) = Some c
}.

Arguments created : simpl never.
Arguments cancel_called : simpl never.
Arguments done_ctx : simpl never.

(** Reduces projections of explicit records and the field setters only. *)
Ltac fields :=
  cbn [fst snd tools world next trace ctx allocCtx allocCancel browserCtx
       browserCtxCancel screenshots consoleLogs maxConsoleLogs idleTimeout
       idleTimer maxImageDimension set_allocCtx set_allocCancel set_browserCtx
       set_browserCtxCancel set_screenshots set_consoleLogs set_idleTimer] in *.

(** Unfolds the field setters as well. *)
Ltac setters :=
  unfold set_allocCtx, set_allocCancel, set_browserCtx, set_browserCtxCancel,
    set_screenshots, set_consoleLogs, set_idleTimer in *;
  fields.

(** Membership in a list given by its elements. *)
Ltac elem_now :=
  cbn [ids fmap list_fmap olist app];
  rewrite ?elem_of_app, ?elem_of_cons; auto 10.

(** Splits a membership hypothesis in a list given by its elements. *)
Ltac elem_cases H :=
  repeat first
    [ apply elem_of_nil in H; destruct H
    | apply elem_of_cons in H as [H | H]; [try discriminate H |]
    | apply elem_of_app in H as [H | H] ].

(** ** Startup rollback *)

(** The cancel functions of the startup attempt that starts in [s]: the
    allocator takes the next free number, the browser context the one
    after. *)
Definition attempt_allocCancel (s : State) : CancelFunc := next (world s).
Definition attempt_browserCancel (s : State) : CancelFunc := S (next (world s)).

(** The effects that led from [s] to [s']. *)
Definition new_effects (s s' : State) : list Effect :=
  drop (length (trace (world s))) (trace (world s')).

(** Rollback as a reading of "everything acquired so far is released" that
    asks for a call of both cancel functions on every failure. *)
Definition rollback_calls_both (o : Startup) (s : State) : Prop :=
  ∀ e s', GetBrowserContext o s = (Some (Err e), s') ->
    ECancel (attempt_allocCancel s) ∈ new_effects s s'
    ∧ ECancel (attempt_browserCancel s) ∈ new_effects s s'
    ∧ session_absent (tools s').

(** The browser binary is missing. *)
Definition no_browser : Startup :=
  mkStartup (Some "exec: chromium: executable file not found in $PATH"%string) None.

(** The browser starts and then refuses the viewport. *)
Definition no_viewport : Startup :=
  mkStartup None (Some "context deadline exceeded"%string).

(** The browser starts and takes the viewport. *)
Definition all_fine : Startup := mkStartup None None.

(** A manager made with the defaults, before any call. *)
Definition fresh_manager : State := init Background 0%Z 0%Z.

(** ** Console-log buffer: what it should hold *)

(** The last [cap] elements of [l], in order. *)
Definition keep_last {A : Type} (cap : nat) (l : list A) : list A :=
  drop (length l - cap) l.

(** Numbered events, for running the buffer. *)
Definition sample_events (n : nat) : list EventConsoleAPICalled :=
  (λ i, mkEvent "log" [] (Z.of_nat i)) <$> seq 0 n.

(** ** Navigation past the port check *)

(** [navigateRun] gets past the port check: it asks for the session, and
    what it returns is the error of the acquisition or the outcome of the
    navigation under the timeout of the call. *)
Definition navigate_acquires {lib : Library}
    (o : Answers) (input : navigateInput) (s : State) : Prop :=
  ∃ r s1,
    GetBrowserContext (startup o) s = (Some r, s1)
    ∧ match r with
      | Err e => navigateRun o (Ok input) s = (Some (ErrorToolOut e), s1)
      | Ok c =>
          navigateRun o (Ok input) s =
            (Some (match run o with
                   | Some e => ErrorToolOut e
                   | None => TextOut "done"
                   end),
             mkState (tools s1)
               (mkWorld (S (next (world s1)))
                  (trace (world s1)
                     ++ [EWithTimeout c (parseTimeout (nav_Timeout input)) (next (world s1));
                         ERun (WithCancel (next (world s1)) c)
                           [Navigate (nav_URL input); WaitReady "body"] (run o);
                         ECancel (next (world s1))])))
      end.

(** Answers of a world in which everything works. *)
Definition fine_answers : Answers :=
  mkAnswers all_fine None [] (mkSaving [] None 0%Z).

(** ** Concrete runs *)

(** A fresh manager after five console events. *)
Definition logged_manager : State :=
  snd (captureAll (sample_events 5) fresh_manager).

(** Answers of a world in which the disk is full. *)
Definition disk_full : Answers :=
  mkAnswers all_fine None [Byte.x89; Byte.x50; Byte.x4e; Byte.x47]
    (mkSaving [Byte.x12; Byte.x34] (Some "write: no space left on device"%string) 7%Z).

(** ** The idle deadline *)

(** The idle timer is set exactly when a browser context is held, and every
    timer that was started and never stopped is the one held. *)
Definition timer_inv (s : State) : Prop :=
  (idleTimer (tools s) = None <-> browserCtx (tools s) = None)
  ∧ ∀ d t, EAfterFunc d t ∈ trace (world s) ->
      EStop t ∈ trace (world s) ∨ idleTimer (tools s) = Some t.

(** ** Every operation of the manager *)

(** Effects that leave sessions and timers alone: no allocator, browser
    context or timer is made or stopped, and a cancel function that is
    called has a number between [lo] and [hi]. *)
Definition quiet (lo hi : nat) (e : Effect) : Prop :=
  match e with
  | ECancel f => lo ≤ f < hi
  | ENewExecAllocator _ _ | ENewContext _ _ | EAfterFunc _ _ | EStop _ => False
  | EWithTimeout _ _ _ | EListenTarget _ | ERun _ _ _ | EWriteFile _ _ _ => True
  end.

(** [s'] comes after [s] by steps that do not touch the session, the idle
    timer or the capacity, do not add console logs, and have quiet effects
    on numbers that were free in [s]. *)
Record benign (s s' : State) : Prop := mk_benign {
  benign_ctx : ctx (tools s') = ctx (tools s);
  benign_allocCtx : allocCtx (tools s') = allocCtx (tools s);
  benign_allocCancel : allocCancel (tools s') = allocCancel (tools s);
  benign_browserCtx : browserCtx (tools s') = browserCtx (tools s);
  benign_browserCtxCancel : browserCtxCancel (tools s') = browserCtxCancel (tools s);
  benign_idleTimer : idleTimer (tools s') = idleTimer (tools s);
  benign_maxConsoleLogs : maxConsoleLogs (tools s') = maxConsoleLogs (tools s);
  benign_logs : length (consoleLogs (tools s')) ≤ length (consoleLogs (tools s));
  benign_next : next (world s) ≤ next (world s');
  benign_trace :
    ∃ tail, trace (world s') = trace (world s) ++ tail
      ∧ Forall (quiet (next (world s)) (next (world s'))) tail
}.

(** One call of an exported method, of the console listener or of a tool
    entry point, with the input it gets and the answers of the outside. *)
Inductive Op : Type :=
| OpGetBrowserContext (o : Startup)
| OpClose
| OpIdleShutdown
| OpCapture (e : EventConsoleAPICalled)
| OpSaveScreenshot (o : Saving) (data : list Byte.byte)
| OpNavigate (o : Answers) (m : result navigateInput)
| OpRecentConsoleLogs (o : Answers) (m : result recentConsoleLogsInput)
| OpClearConsoleLogs (o : Answers) (m : result unit)
| OpScreenshot (o : Answers) (m : result screenshotInput).

(** The call, its result dropped. *)
Definition perform {lib : Library} (op : Op) : M unit :=
  match op with
  | OpGetBrowserContext o => GetBrowserContext o;; mret tt
  | OpClose => Close
  | OpIdleShutdown => idleShutdown
  | OpCapture e => captureConsoleLog e
  | OpSaveScreenshot o data => SaveScreenshot o data;; mret tt
  | OpNavigate o m => navigateRun o m;; mret tt
  | OpRecentConsoleLogs o m => recentConsoleLogsRun o m;; mret tt
  | OpClearConsoleLogs o m => clearConsoleLogsRun o m;; mret tt
  | OpScreenshot o m => screenshotRun o m;; mret tt
  end.

(** The state after the operations, or [None] when one of them panicked. *)
Fixpoint run_ops {lib : Library} (ops : list Op) (s : State) : option State :=
  match ops with
  | [] => Some s
  | op :: ops' =>
      match perform op s with
      | (Some _, s') => run_ops ops' s'
      | (None, _) => None
      end
  end.

(** What holds of the whole manager between two operations. *)
Record manager_inv (root : context) (s : State) : Prop := mk_manager_inv {
  minv_session : session_inv root s;
  minv_timer : timer_inv s;
  minv_capacity : maxConsoleLogs (tools s) = 100%Z;
  minv_logs : length (consoleLogs (tools s)) ≤ 100
}.

(** Proves [benign] between two explicit states. *)
Ltac benign_now :=
  split; fields; try done; try lia;
  eexists; split; [rewrite <- ?app_assoc; reflexivity |];
  repeat constructor; cbn; lia.

(** ** The remaining tool entry points: [resizeRun] and [readImageRun] *)

Record resizeInput : Type := mkResizeInput {
  rs_Width : Z;
  rs_Height : Z;
  rs_Timeout : string
}.

Record readImageInput : Type := mkReadImageInput {
  ri_Path : string;
  ri_Timeout : string
}.

(** What the file system answers to [readImageRun]: whether [os.Stat]
    reports that the path does not exist, and what [os.ReadFile] returns. *)
Record FileAnswers : Type := mkFileAnswers {
  notExist : bool;
  readFile : result (list Byte.byte)
}.

(** [http.DetectContentType] of the Go standard library, which always
    returns a MIME type. *)
Class Http : Type := {
  http_DetectContentType : list Byte.byte -> string
}.

(** [strings.TrimPrefix] *)
Definition strings_TrimPrefix (s p : string) : string :=
  if Strings.HasPrefix s p then Strings.from (String.length p) s else s.

Definition invalid_dimensions : error :=
  "invalid dimensions: width and height must be positive".

Section MoreTools.

Context {lib : Library} {http : Http}.

Definition resizeRun (o : Answers) (m : result resizeInput) : M ToolOut :=
  match m with
  | Err err => mret (ErrorfToolOut "invalid input" err)
  | Ok input =>
      if ((rs_Width input <=? 0) || (rs_Height input <=? 0))%Z
      then mret (ErrorToolOut invalid_dimensions)
      else
        r ← GetBrowserContext (startup o);
        match r with
        | Err err => mret (ErrorToolOut err)
        | Ok browserCtx' =>
            '(timeoutCtx, cancel) ←
              context_WithTimeout browserCtx' (parseTimeout (rs_Timeout input));
            err ← chromedp_Run timeoutCtx
                    [EmulateViewport (rs_Width input) (rs_Height input)] (run o);
            call cancel;;
            match err with
            | Some e => mret (ErrorToolOut e)
            | None => mret (TextOut "done")
            end
        end
  end.

(** [readImageRun] reads [b.maxImageDimension] and nothing else of the
    manager; it never asks for the session. *)
Definition readImageRun (fs : FileAnswers) (m : result readImageInput) : M ToolOut :=
  match m with
  | Err err => mret (ErrorfToolOut "invalid input" err)
  | Ok input =>
      if notExist fs
      then mret (ErrorfToolOut "image file not found" (ri_Path input))
      else
        match readFile fs with
        | Err err => mret (ErrorfToolOut "failed to read image file" err)
        | Ok imageData =>
            let detectedType := http_DetectContentType imageData in
            if negb (Strings.HasPrefix detectedType "image/")
            then mret (ErrorfToolOut "file is not an image" detectedType)
            else
              b ← getb;
              let resized :=
                if (0 <? maxImageDimension b)%Z
                then imageutil_ResizeImage imageData (maxImageDimension b)
                else Ok (imageData, strings_TrimPrefix detectedType "image/", false) in
              match resized with
              | Err e => mret (ErrorToolOut (wrap "failed to resize image" e))
              | Ok (imageData, format, resized) =>
                  let mediaType := "image/" +:+ format in
                  let description :=
                    "Image from " +:+ ri_Path input +:+ " (type: " +:+ mediaType +:+ ")"
                    +:+ (if resized then " [resized]" else "") in
                  mret (mkToolOut [Text description; Media mediaType imageData] None None)
              end
        end
  end.

(** One call of any operation of the package that is modelled. *)
Inductive Request : Type :=
| ReqOp (op : Op)
| ReqResize (o : Answers) (m : result resizeInput)
| ReqReadImage (fs : FileAnswers) (m : result readImageInput).

Definition serve (r : Request) : M unit :=
  match r with
  | ReqOp op => perform op
  | ReqResize o m => resizeRun o m;; mret tt
  | ReqReadImage fs m => readImageRun fs m;; mret tt
  end.

(** The state after the requests, or [None] when one of them panicked. *)
Fixpoint run_requests (rs : list Request) (s : State) : option State :=
  match rs with
  | [] => Some s
  | r :: rs' =>
      match serve r s with
      | (Some _, s') => run_requests rs' s'
      | (None, _) => None
      end
  end.

End MoreTools.

(** A request that can tear the session down. *)
Definition is_teardown (r : Request) : bool :=
  match r with
  | ReqOp OpClose | ReqOp OpIdleShutdown => true
  | _ => false
  end.

(** The session fields agree, and no allocator or browser context was made
    on the way from [s] to [s']. *)
Definition same_session (s s' : State) : Prop :=
  allocCtx (tools s') = allocCtx (tools s)
  ∧ allocCancel (tools s') = allocCancel (tools s)
  ∧ browserCtx (tools s') = browserCtx (tools s)
  ∧ browserCtxCancel (tools s') = browserCtxCancel (tools s)
  ∧ created (world s') = created (world s).

(** What every request does to the world, whatever the state: timers are
    armed with the idle timeout of the manager, which does not change; a
    timeout context that is made is cancelled before the request returns;
    an identifier whose record changes has 36 bytes and its file was
    written in this request; no record is removed. *)
Record step_ok (s s' : State) : Prop := mk_step_ok {
  so_idleTimeout : idleTimeout (tools s') = idleTimeout (tools s);
  so_extends : ∃ tail, trace (world s') = trace (world s) ++ tail;
  so_timers :
    ∀ d t, EAfterFunc d t ∈ new_effects s s' -> d = idleTimeout (tools s);
  so_timeouts :
    ∀ p d i, EWithTimeout p d i ∈ new_effects s s' -> ECancel i ∈ new_effects s s';
  so_written :
    ∀ id, screenshots (tools s') !! id ≠ screenshots (tools s) !! id ->
      String.length id = 36
      ∧ ∃ data, EWriteFile (GetScreenshotPath id) data None ∈ new_effects s s';
  so_kept :
    ∀ id, is_Some (screenshots (tools s) !! id) ->
      is_Some (screenshots (tools s') !! id)
}.

(** An image sniffer for the concrete runs: PNG by its signature, anything
    else is text. *)
Definition sniff_png (data : list Byte.byte) : string :=
  match data with
  | Byte.x89 :: Byte.x50 :: Byte.x4e :: Byte.x47 :: _ => "image/png"
  | _ => "text/plain; charset=utf-8"
  end.

Definition png_sniffer : Http := {| http_DetectContentType := sniff_png |}.

(** Solves [step_ok] between a state and an explicit later state, from
    the introduction lemma [intro] of the relation. *)
Ltac step_ok_with intro :=
  apply intro;
  [ done
  | let H := fresh in intros ? ? H; unfold attempt_trace, viewport_effect in H;
    elem_cases H; by simplify_eq
  | let H := fresh in intros ? ? ? H; unfold attempt_trace, viewport_effect in H;
    elem_cases H; simplify_eq; elem_now
  | first [ by left | right; eexists _, _, _; split; [reflexivity | elem_now] ] ].

(** A library like [GoModel.library] whose image decoder refuses its
    input, as [image.Decode] does on bytes in a format it does not know. *)
Definition no_decoder : Library :=
  {| url_Parse := GoModel.Parse;
     time_ParseDuration := GoModel.ParseDuration;
     json_MarshalIndent := GoModel.MarshalIndent;
     imageutil_ResizeImage := λ _ _, Err "image: unknown format"%string |}.

(** A manager that asks for images of at most 2000 pixels a side. *)
Definition limited_manager : State := init Background 0%Z 2000%Z.

(** Answers of a world in which everything works and a screenshot is the
    first bytes of a PNG image. *)
Definition shot_answers : Answers :=
  mkAnswers all_fine None [Byte.x89; Byte.x50; Byte.x4e; Byte.x47]
    (mkSaving [Byte.x12; Byte.x34] None 7%Z).

(** A file that holds the first bytes of a PNG image. *)
Definition png_file : FileAnswers :=
  mkFileAnswers false (Ok [Byte.x89; Byte.x50; Byte.x4e; Byte.x47; Byte.x0d; Byte.x0a]).

(** Answers of a world in which the page cannot be reached. *)
Definition page_down : Answers :=
  mkAnswers all_fine (Some "net::ERR_CONNECTION_REFUSED"%string) []
    (mkSaving [] None 0%Z).

(** A fresh manager after one successful [GetBrowserContext]. *)
Definition live_manager : State := snd (GetBrowserContext all_fine fresh_manager).



(** * Theorems *)

(** ** What each life-cycle method does, in closed form *)

Lemma closeBrowserLocked_run (s : State) :
  closeBrowserLocked s =
    (Some tt,
     mkState
       (set_allocCtx None (set_browserCtx None (set_allocCancel None
          (set_browserCtxCancel None (set_idleTimer None (tools s))))))
       (mkWorld (next (world s))
          (trace (world s) ++ (EStop <$> olist (idleTimer (tools s)))
             ++ (ECancel <$> olist (browserCtxCancel (tools s)))
             ++ (ECancel <$> olist (allocCancel (tools s)))))).
Proof.
  open_state s. unfold closeBrowserLocked.
  destruct tm, bf, af; run_M; cbn; rewrite <- ?app_assoc, ?app_nil_r; reflexivity.
Qed.

Lemma idleShutdown_run (s : State) :
  idleShutdown s =
    match browserCtx (tools s) with
    | None => (Some tt, s)
    | Some _ => closeBrowserLocked s
    end.
Proof.
  open_state s. unfold idleShutdown. run_M. cbn. destruct bc; reflexivity.
Qed.

Lemma resetIdleTimerLocked_run (s : State) :
  resetIdleTimerLocked s =
    (Some tt,
     mkState (set_idleTimer (Some (next (world s))) (tools s))
       (mkWorld (S (next (world s)))
          (trace (world s) ++ (EStop <$> olist (idleTimer (tools s)))
             ++ [EAfterFunc (idleTimeout (tools s)) (next (world s))]))).
Proof.
  open_state s. unfold resetIdleTimerLocked.
  destruct tm; run_M; cbn; rewrite <- ?app_assoc; reflexivity.
Qed.

Lemma GetBrowserContext_existing (o : Startup) (s : State) (c : context) :
  browserCtx (tools s) = Some c ->
  GetBrowserContext o s =
    (Some (Ok c),
     mkState (set_idleTimer (Some (next (world s))) (tools s))
       (mkWorld (S (next (world s)))
          (trace (world s) ++ (EStop <$> olist (idleTimer (tools s)))
             ++ [EAfterFunc (idleTimeout (tools s)) (next (world s))]))).
Proof.
  open_state s. cbn. intros ->. unfold GetBrowserContext, resetIdleTimerLocked.
  destruct tm; run_M; cbn; rewrite <- ?app_assoc; reflexivity.
Qed.

Lemma GetBrowserContext_start_fails (o : Startup) (s : State) (e : error) :
  browserCtx (tools s) = None ->
  startBrowser o = Some e ->
  GetBrowserContext o s =
    (Some (Err (wrap "failed to start browser (please apt get chromium or equivalent)" e)),
     mkState (tools s)
       (mkWorld (S (S (next (world s))))
          (trace (world s) ++ attempt_trace (ctx (tools s)) (next (world s)) o
             ++ [ECancel (next (world s))]))).
Proof.
  open_state s. destruct o as [st vp]. cbn. intros -> ->.
  unfold GetBrowserContext. run_M. cbn. rewrite <- ?app_assoc. reflexivity.
Qed.

Lemma GetBrowserContext_viewport_fails (o : Startup) (s : State) (e : error) :
  browserCtx (tools s) = None ->
  startBrowser o = None ->
  setViewport o = Some e ->
  GetBrowserContext o s =
    (Some (Err (wrap "failed to set default viewport" e)),
     mkState (tools s)
       (mkWorld (S (S (next (world s))))
          (trace (world s) ++ attempt_trace (ctx (tools s)) (next (world s)) o
             ++ [viewport_effect (ctx (tools s)) (next (world s)) o;
                 ECancel (S (next (world s)));
                 ECancel (next (world s))]))).
Proof.
  open_state s. destruct o as [st vp]. cbn. intros -> -> ->.
  unfold GetBrowserContext. run_M. cbn. rewrite <- ?app_assoc. reflexivity.
Qed.

Lemma GetBrowserContext_starts (o : Startup) (s : State) :
  browserCtx (tools s) = None ->
  startBrowser o = None ->
  setViewport o = None ->
  GetBrowserContext o s =
    (Some (Ok (WithCancel (S (next (world s)))
                 (WithCancel (next (world s)) (ctx (tools s))))),
     mkState
       (set_idleTimer (Some (S (S (next (world s)))))
          (set_browserCtxCancel (Some (S (next (world s))))
             (set_browserCtx
                (Some (WithCancel (S (next (world s)))
                         (WithCancel (next (world s)) (ctx (tools s)))))
                (set_allocCancel (Some (next (world s)))
                   (set_allocCtx (Some (WithCancel (next (world s)) (ctx (tools s))))
                      (tools s))))))
       (mkWorld (S (S (S (next (world s)))))
          (trace (world s) ++ attempt_trace (ctx (tools s)) (next (world s)) o
             ++ [viewport_effect (ctx (tools s)) (next (world s)) o]
             ++ (EStop <$> olist (idleTimer (tools s)))
             ++ [EAfterFunc (idleTimeout (tools s)) (S (S (next (world s))))]))).
Proof.
  open_state s. destruct o as [st vp]. cbn. intros -> -> ->.
  unfold GetBrowserContext, resetIdleTimerLocked.
  destruct tm; run_M; cbn; rewrite <- ?app_assoc; reflexivity.
Qed.

(** ** Facts about traces *)

Lemma cancel_called_app (n n' : nat) (tr tr' : list Effect) (f : CancelFunc) :
  cancel_called (mkWorld n' (tr ++ tr')) f <->
  cancel_called (mkWorld n tr) f ∨ ECancel f ∈ tr'.
Proof. unfold cancel_called. cbn. apply elem_of_app. Qed.

Lemma done_ctx_app (n n' : nat) (tr tr' : list Effect) (c : context) :
  done_ctx (mkWorld n tr) c -> done_ctx (mkWorld n' (tr ++ tr')) c.
Proof.
  unfold done_ctx. rewrite !Exists_exists. intros (i & Hi & Hc).
  exists i. split; [done |]. apply (cancel_called_app n). by left.
Qed.

Lemma done_ctx_cancel (n : nat) (tr : list Effect) (c : context) (i : nat) :
  i ∈ ids c -> ECancel i ∈ tr -> done_ctx (mkWorld n tr) c.
Proof.
  intros Hi Hc. unfold done_ctx. rewrite Exists_exists. by exists i.
Qed.

Lemma created_app (n n' : nat) (tr tr' : list Effect) :
  created (mkWorld n (tr ++ tr')) = created (mkWorld n' tr) ++ created (mkWorld n' tr').
Proof. unfold created. cbn. apply omap_app. Qed.

Lemma ids_le_max_id (c : context) (i : nat) : i ∈ ids c -> i ≤ max_id c.
Proof.
  induction c as [| j p IH]; cbn.
  - intros Hi. by apply elem_of_nil in Hi.
  - rewrite elem_of_cons. intros [-> | Hi]; [lia |]. specialize (IH Hi). lia.
Qed.

(** ** The session invariant *)

Lemma session_inv_init c idle maxDim : session_inv c (init c idle maxDim).
Proof.
  split; cbn.
  - reflexivity.
  - lia.
  - left. by repeat split.
  - intros f Hf. unfold cancel_called in Hf. cbn in Hf. by apply elem_of_nil in Hf.
  - intros c' Hc. unfold created in Hc. cbn in Hc. by apply elem_of_nil in Hc.
Qed.

Lemma session_inv_close root s : session_inv root s -> session_inv root (snd (closeBrowserLocked s)).
Proof.
  intros [Hctx Hnext Hshape Hcancel Hcreated].
  rewrite closeBrowserLocked_run. open_state s. unfold session_absent, session_of in *. fields. subst c0.
  split; fields.
  - reflexivity.
  - done.
  - left. by repeat split.
  - intros f Hf. apply (cancel_called_app n) in Hf as [Hf | Hf]; [by apply Hcancel |].
    destruct Hshape as [(-> & -> & -> & ->) | (i & j & (-> & -> & -> & ->) & Hi & Hj & _)].
    + destruct tm; cbn in Hf; elem_cases Hf.
    + destruct tm; cbn in Hf; elem_cases Hf; simplify_eq; lia.
  - intros c Hc. left. rewrite (created_app _ n) in Hc.
    apply elem_of_app in Hc as [Hc | Hc].
    2:{ unfold created in Hc. destruct tm, bf, af; cbn in Hc; elem_cases Hc. }
    destruct (Hcreated c Hc) as [Hd | Hf].
    { by apply (done_ctx_app n). }
    destruct Hshape as [(-> & -> & -> & ->) | (i & j & (-> & -> & -> & ->) & _)].
    { by destruct Hf. }
    destruct Hf as [[= <-] | [= <-]].
    + apply (done_ctx_cancel _ _ _ i); [elem_now |]. destruct tm; elem_now.
    + apply (done_ctx_cancel _ _ _ i); [elem_now |]. destruct tm; elem_now.
Qed.

Lemma session_inv_get root o s : session_inv root s -> session_inv root (snd (GetBrowserContext o s)).
Proof.
  intros [Hctx Hnext Hshape Hcancel Hcreated].
  destruct (browserCtx (tools s)) as [c|] eqn:Hbc.
  - rewrite (GetBrowserContext_existing _ _ _ Hbc). open_state s. unfold session_absent, session_of in *. fields. subst c0 bc.
    assert (∀ f, ¬ ECancel f ∈ (EStop <$> olist tm) ++ [EAfterFunc it n]) as Hno.
    { intros f Hf. destruct tm; cbn in Hf; elem_cases Hf. }
    assert (created (mkWorld n ((EStop <$> olist tm) ++ [EAfterFunc it n])) = []) as Hnew.
    { by destruct tm. }
    split; fields.
    + reflexivity.
    + lia.
    + destruct Hshape as [Ha | (i & j & Hs & Hi & Hj & Hci & Hcj & Hai & Haj)]; [by left | right].
      exists i, j. split; [done |]. split; [lia |]. split; [lia |].
      rewrite !(cancel_called_app n), (created_app _ n), Hnew, app_nil_r.
      pose proof (Hno i). pose proof (Hno j). tauto.
    + intros f Hf. apply (cancel_called_app n) in Hf as [Hf | Hf]; [| by destruct (Hno f)].
      specialize (Hcancel f Hf). lia.
    + intros c' Hc. rewrite (created_app _ n), Hnew, app_nil_r in Hc.
      destruct (Hcreated c' Hc) as [Hd | Hf]; [left | right; exact Hf].
      by apply (done_ctx_app n).
  - assert (session_absent (tools s)) as Habs.
    { destruct Hshape as [Ha | (i & j & (_ & _ & Hb & _) & _)]; [done | congruence]. }
    clear Hshape. destruct Habs as (Hac & Haf & _ & Hbf).
    destruct (startBrowser o) as [e|] eqn:Hst.
    { rewrite (GetBrowserContext_start_fails _ _ _ Hbc Hst).
      open_state s. unfold session_absent, session_of in *. fields. subst c0. subst.
      split; fields.
      + reflexivity.
      + lia.
      + left. by repeat split.
      + intros f Hf. apply (cancel_called_app n) in Hf as [Hf | Hf].
        * specialize (Hcancel f Hf). lia.
        * unfold attempt_trace in Hf. elem_cases Hf. simplify_eq. lia.
      + intros c Hc. left. rewrite (created_app _ n) in Hc.
        apply elem_of_app in Hc as [Hc | Hc].
        * destruct (Hcreated c Hc) as [Hd | [? | ?]]; [| done..]. by apply (done_ctx_app n).
        * unfold created, attempt_trace in Hc. cbn in Hc. elem_cases Hc; subst c.
          all: apply (done_ctx_cancel _ _ _ n); elem_now. }
    destruct (setViewport o) as [e|] eqn:Hvp.
    { rewrite (GetBrowserContext_viewport_fails _ _ _ Hbc Hst Hvp).
      open_state s. unfold session_absent, session_of in *. fields. subst c0. subst.
      split; fields.
      + reflexivity.
      + lia.
      + left. by repeat split.
      + intros f Hf. apply (cancel_called_app n) in Hf as [Hf | Hf].
        * specialize (Hcancel f Hf). lia.
        * unfold attempt_trace in Hf. elem_cases Hf; simplify_eq; lia.
      + intros c Hc. left. rewrite (created_app _ n) in Hc.
        apply elem_of_app in Hc as [Hc | Hc].
        * destruct (Hcreated c Hc) as [Hd | [? | ?]]; [| done..]. by apply (done_ctx_app n).
        * unfold created, attempt_trace in Hc. cbn in Hc. elem_cases Hc; subst c.
          all: apply (done_ctx_cancel _ _ _ n); elem_now. }
    rewrite (GetBrowserContext_starts _ _ Hbc Hst Hvp).
    open_state s. unfold session_absent, session_of in *. fields. subst c0. subst.
    assert (∀ f, ¬ ECancel f ∈ attempt_trace root n o ++ [viewport_effect root n o]
                     ++ (EStop <$> olist tm) ++ [EAfterFunc it (S (S n))]) as Hno.
    { intros f Hf. unfold attempt_trace in Hf. destruct tm; cbn in Hf; elem_cases Hf. }
    assert (created (mkWorld n (attempt_trace root n o ++ [viewport_effect root n o]
                     ++ (EStop <$> olist tm) ++ [EAfterFunc it (S (S n))]))
            = [WithCancel n root; WithCancel (S n) (WithCancel n root)]) as Hnew.
    { by destruct tm. }
    assert (∀ i, n ≤ i -> ¬ cancel_called (mkWorld n tr) i) as Hfresh.
    { intros i Hi Hc. specialize (Hcancel i Hc). lia. }
    split; fields.
    + reflexivity.
    + lia.
    + right. exists n, (S n). split; [by repeat split |].
      split; [lia |]. split; [lia |].
      rewrite !(cancel_called_app n), (created_app _ n), Hnew.
      split; [intros [? | ?]; [by eapply Hfresh | by eapply Hno] |].
      split; [intros [Hc | ?]; [| by eapply Hno] |].
      { eapply Hfresh; [| exact Hc]. lia. }
      elem_now.
    + intros f Hf. apply (cancel_called_app n) in Hf as [Hf | Hf]; [| by destruct (Hno f)].
      specialize (Hcancel f Hf). lia.
    + intros c Hc. rewrite (created_app _ n), Hnew in Hc.
      apply elem_of_app in Hc as [Hc | Hc].
      * destruct (Hcreated c Hc) as [Hd | [? | ?]]; [| done..]. left. by apply (done_ctx_app n).
      * right. elem_cases Hc; subst c; auto.
Qed.

Lemma session_inv_idleShutdown root s :
  session_inv root s -> session_inv root (snd (idleShutdown s)).
Proof.
  intros Hinv. rewrite idleShutdown_run.
  destruct (browserCtx (tools s)); [by apply session_inv_close | exact Hinv].
Qed.

Lemma session_inv_step root c s : session_inv root s -> session_inv root (step c s).
Proof.
  destruct c; cbn [step].
  - apply session_inv_get.
  - apply session_inv_close.
  - apply session_inv_idleShutdown.
Qed.

Lemma session_inv_run_calls root cs s :
  session_inv root s -> session_inv root (run_calls cs s).
Proof.
  revert s. induction cs as [| c cs IH]; intros s Hinv; [exact Hinv |].
  cbn. apply IH. by apply session_inv_step.
Qed.

Lemma session_inv_live root s c :
  session_inv root s ->
  allocCtx (tools s) = Some c ∨ browserCtx (tools s) = Some c ->
  c ∈ created (world s) ∧ ¬ done_ctx (world s) c.
Proof.
  intros [Hctx Hnext Hshape Hcancel Hcreated] Hc.
  destruct Hshape as [(Ha & _ & Hb & _) | (i & j & (Ha & _ & Hb & _) & Hi & Hj & Hci & Hcj & Hai & Haj)].
  { destruct Hc; congruence. }
  rewrite Hctx in Ha, Hb.
  assert (∀ k, k ∈ ids root -> ¬ cancel_called (world s) k) as Hroot.
  { intros k Hk Hcalled. apply ids_le_max_id in Hk. specialize (Hcancel k Hcalled). lia. }
  unfold done_ctx. rewrite Exists_exists.
  destruct Hc as [Hc | Hc]; rewrite Hc in *; simplify_eq; (split; [done |]).
  - intros (k & Hk & Hcalled). cbn in Hk. elem_cases Hk; subst; [done |].
    by apply (Hroot k).
  - intros (k & Hk & Hcalled). cbn in Hk. elem_cases Hk; subst; [done | done |].
    by apply (Hroot k).
Qed.

(** ** C1: at most one session, absent or fully initialised *)

(** C1. After [NewBrowseTools] and any sequence of [GetBrowserContext],
    [Close] and [idleShutdown] calls, whatever the browser answers: the
    four session fields are all nil, or they hold one allocator context
    derived from [b.ctx], one browser context derived from that allocator,
    and the cancel function of each. Every allocator or browser context the
    manager ever created and that is not done is the one held in the
    fields, and the contexts held in the fields are not done. *)
Theorem session_absent_or_full (root : context) (idle maxDim : Z) (cs : list Call) :
  (session_absent (tools (run_calls cs (init root idle maxDim)))
   ∨ session_full (tools (run_calls cs (init root idle maxDim))))
  ∧ (∀ c, c ∈ created (world (run_calls cs (init root idle maxDim))) ->
          ¬ done_ctx (world (run_calls cs (init root idle maxDim))) c ->
          allocCtx (tools (run_calls cs (init root idle maxDim))) = Some c
          ∨ browserCtx (tools (run_calls cs (init root idle maxDim))) = Some c)
  ∧ (∀ c, allocCtx (tools (run_calls cs (init root idle maxDim))) = Some c
          ∨ browserCtx (tools (run_calls cs (init root idle maxDim))) = Some c ->
          c ∈ created (world (run_calls cs (init root idle maxDim)))
          ∧ ¬ done_ctx (world (run_calls cs (init root idle maxDim))) c).
Proof.
  pose proof (session_inv_run_calls root cs _ (session_inv_init root idle maxDim)) as Hinv.
  set (s := run_calls cs (init root idle maxDim)) in *.
  split; [| split].
  - destruct (inv_shape _ _ Hinv) as [Ha | (i & j & Hs & _)]; [by left | right].
    by exists i, j.
  - intros c Hc Hlive. destruct (inv_created _ _ Hinv c Hc); [done | assumption].
  - intros c Hc. by apply (session_inv_live root).
Qed.

(** ** The idle deadline: one pending timer per session *)

Lemma timer_inv_init c idle maxDim : timer_inv (init c idle maxDim).
Proof.
  split; cbn; [done |]. intros d t Ht. by apply elem_of_nil in Ht.
Qed.

Lemma timer_inv_close s : timer_inv s -> timer_inv (snd (closeBrowserLocked s)).
Proof.
  intros [Hset Hpending]. rewrite closeBrowserLocked_run.
  open_state s. setters. split; fields; [done |].
  intros d t Ht. left. apply elem_of_app in Ht as [Ht | Ht].
  - destruct (Hpending d t Ht) as [Hs | ->]; [| cbn]; elem_now.
  - destruct tm, bf, af; cbn in Ht; elem_cases Ht.
Qed.

Lemma timer_inv_get o s : timer_inv s -> timer_inv (snd (GetBrowserContext o s)).
Proof.
  intros [Hset Hpending].
  destruct (browserCtx (tools s)) as [c |] eqn:Hbc;
    [| destruct (startBrowser o) as [e |] eqn:Hst;
       [| destruct (setViewport o) as [e |] eqn:Hvp]].
  - rewrite (GetBrowserContext_existing _ _ _ Hbc). open_state s. setters. subst bc.
    split; fields; [first [done | split; discriminate] |]. intros d t Ht.
    apply elem_of_app in Ht as [Ht | Ht].
    + destruct (Hpending d t Ht) as [Hs | ->]; [| cbn]; left; elem_now.
    + right. destruct tm; cbn in Ht; elem_cases Ht; by simplify_eq.
  - rewrite (GetBrowserContext_start_fails _ _ _ Hbc Hst). open_state s. setters. subst bc.
    split; fields; [first [done | split; discriminate] |]. intros d t Ht.
    apply elem_of_app in Ht as [Ht | Ht].
    + destruct (Hpending d t Ht) as [Hs | ->]; [left; elem_now | by right].
    + unfold attempt_trace in Ht. elem_cases Ht.
  - rewrite (GetBrowserContext_viewport_fails _ _ _ Hbc Hst Hvp). open_state s. setters. subst bc.
    split; fields; [first [done | split; discriminate] |]. intros d t Ht.
    apply elem_of_app in Ht as [Ht | Ht].
    + destruct (Hpending d t Ht) as [Hs | ->]; [left; elem_now | by right].
    + unfold attempt_trace in Ht. elem_cases Ht.
  - rewrite (GetBrowserContext_starts _ _ Hbc Hst Hvp). open_state s. setters. subst bc.
    split; fields; [first [done | split; discriminate] |]. intros d t Ht.
    apply elem_of_app in Ht as [Ht | Ht].
    + destruct (Hpending d t Ht) as [Hs | ->]; [| cbn]; left; elem_now.
    + right. unfold attempt_trace in Ht.
      destruct tm; cbn in Ht; elem_cases Ht; by simplify_eq.
Qed.

Lemma timer_inv_step c s : timer_inv s -> timer_inv (step c s).
Proof.
  destruct c; cbn [step]; [apply timer_inv_get | apply timer_inv_close |].
  rewrite idleShutdown_run.
  destruct (browserCtx (tools s)); [apply timer_inv_close | done].
Qed.

Lemma timer_inv_run_calls cs s : timer_inv s -> timer_inv (run_calls cs s).
Proof.
  revert s. induction cs as [| c cs IH]; intros s Hinv; [exact Hinv |].
  cbn. apply IH. by apply timer_inv_step.
Qed.

(** The idle deadline. After [NewBrowseTools] and any sequence of
    [GetBrowserContext], [Close] and [idleShutdown] calls, the idle timer
    is set exactly when the session exists, and a timer that was started
    and has not been stopped is the one the manager holds: a reset
    replaces the deadline, it does not stack a second one. *)
Theorem idle_timer_unique (root : context) (idle maxDim : Z) (cs : list Call) :
  (is_Some (idleTimer (tools (run_calls cs (init root idle maxDim))))
   <-> session_full (tools (run_calls cs (init root idle maxDim))))
  ∧ (∀ d t,
       EAfterFunc d t ∈ trace (world (run_calls cs (init root idle maxDim))) ->
       EStop t ∉ trace (world (run_calls cs (init root idle maxDim))) ->
       idleTimer (tools (run_calls cs (init root idle maxDim))) = Some t).
Proof.
  pose proof (session_inv_run_calls root cs _ (session_inv_init root idle maxDim)) as Hinv.
  pose proof (timer_inv_run_calls cs _ (timer_inv_init root idle maxDim)) as [Hset Hpending].
  set (s := run_calls cs (init root idle maxDim)) in *.
  split.
  - destruct (inv_shape _ _ Hinv) as [Ha | (i & j & Hs & _)].
    + split.
      * intros [t Ht]. destruct Ha as (_ & _ & Hb & _).
        apply Hset in Hb. congruence.
      * intros (i & j & _ & _ & Hb & _). destruct Ha as (_ & _ & Hb' & _). congruence.
    + split; [intros _; by exists i, j |].
      intros _. destruct Hs as (_ & _ & Hb & _).
      destruct (idleTimer (tools s)) as [t |] eqn:Ht; [by eexists |].
      destruct Hset as [Hset _]. rewrite Hset in Hb; done.
  - intros d t Ht Hstop. by destruct (Hpending d t Ht).
Qed.

(** ** C9: teardown leaves the logs and the screenshots alone *)

(** C9. [Close] and [idleShutdown] change nothing but the four session
    fields and the idle timer: the console logs, the screenshot registry
    and every other field are as before, whatever the state. *)
Theorem teardown_frame (s : State) :
  (consoleLogs (tools (snd (Close s))) = consoleLogs (tools s)
   ∧ screenshots (tools (snd (Close s))) = screenshots (tools s)
   ∧ tools (snd (Close s)) =
       set_allocCtx None (set_browserCtx None (set_allocCancel None
         (set_browserCtxCancel None (set_idleTimer None (tools s))))))
  ∧ (consoleLogs (tools (snd (idleShutdown s))) = consoleLogs (tools s)
     ∧ screenshots (tools (snd (idleShutdown s))) = screenshots (tools s)
     ∧ (tools (snd (idleShutdown s)) = tools s
        ∨ tools (snd (idleShutdown s)) =
            set_allocCtx None (set_browserCtx None (set_allocCancel None
              (set_browserCtxCancel None (set_idleTimer None (tools s))))))).
Proof.
  unfold Close. rewrite idleShutdown_run.
  destruct (browserCtx (tools s)); rewrite ?closeBrowserLocked_run; fields; auto 10.
Qed.

(** ** C2: a failed startup is rolled back *)

Lemma new_effects_app (b b' : BrowseTools) (n n' : nat) (tr tail : list Effect) :
  new_effects (mkState b (mkWorld n tr)) (mkState b' (mkWorld n' (tr ++ tail))) = tail.
Proof. unfold new_effects. cbn. apply drop_app_length. Qed.

(** Whatever the state, a call that finds no browser context begins with a
    full startup attempt on fresh numbers. *)
Lemma GetBrowserContext_attempts (o : Startup) (s : State) :
  browserCtx (tools s) = None ->
  ∃ r s', GetBrowserContext o s = (Some r, s')
    ∧ take 4 (new_effects s s') = attempt_trace (ctx (tools s)) (next (world s)) o.
Proof.
  intros Hbc.
  destruct (startBrowser o) as [e |] eqn:Hst;
    [| destruct (setViewport o) as [e |] eqn:Hvp].
  - eexists _, _. split; [by apply GetBrowserContext_start_fails |].
    destruct s as [b [n tr]]. fields. by rewrite new_effects_app.
  - eexists _, _. split; [by apply GetBrowserContext_viewport_fails |].
    destruct s as [b [n tr]]. fields. by rewrite new_effects_app.
  - eexists _, _. split; [by apply GetBrowserContext_starts |].
    destruct s as [b [n tr]]. fields. by rewrite new_effects_app.
Qed.

(** C2, counterexample. With no browser binary the first step of the
    startup fails; the allocator's cancel function is called and the
    browser context's is not. *)
Lemma rollback_calls_both_fails :
  ¬ rollback_calls_both no_browser (fresh_manager).
Proof.
  intros Hclaim.
  destruct (Hclaim _ _ (GetBrowserContext_start_fails no_browser
                          (fresh_manager) _ eq_refl eq_refl))
    as (_ & Hbrowser & _).
  vm_compute in Hbrowser. elem_cases Hbrowser.
Qed.

(** C2, amended. When the manager holds no session and a step of the
    startup fails, [GetBrowserContext] returns an error and leaves the
    manager as it was, so the session fields stay nil; the error is the
    one of the failed step under the message of that step. The allocator's
    cancel function is called during the call, which puts both contexts of
    the attempt in the done state, the browser context being derived from
    the allocator; when the step that fails is the viewport, the browser
    context's cancel function is called too, before the allocator's. The
    next call starts over: it makes a new allocator and a new browser
    context, numbered after those of the failed attempt, and with a browser
    that answers well it returns the new browser context and leaves a full
    session. *)
Theorem startup_failure_rolls_back (o : Startup) (s : State) :
  session_absent (tools s) ->
  is_Some (startBrowser o) ∨ is_Some (setViewport o) ->
  ∃ e s',
    GetBrowserContext o s = (Some (Err e), s')
    ∧ (∀ e0, startBrowser o = Some e0 ->
         e = wrap "failed to start browser (please apt get chromium or equivalent)" e0)
    ∧ (∀ e0, startBrowser o = None -> setViewport o = Some e0 ->
         e = wrap "failed to set default viewport" e0)
    ∧ tools s' = tools s
    ∧ session_absent (tools s')
    ∧ ECancel (attempt_allocCancel s) ∈ new_effects s s'
    ∧ (startBrowser o = None ->
       ∃ mid, new_effects s s' =
                mid ++ [ECancel (attempt_browserCancel s);
                        ECancel (attempt_allocCancel s)])
    ∧ done_ctx (world s') (WithCancel (next (world s)) (ctx (tools s)))
    ∧ done_ctx (world s')
        (WithCancel (S (next (world s))) (WithCancel (next (world s)) (ctx (tools s))))
    ∧ next (world s') = S (S (next (world s)))
    ∧ ∀ o2, ∃ r s'',
        GetBrowserContext o2 s' = (Some r, s'')
        ∧ take 4 (new_effects s' s'') =
            attempt_trace (ctx (tools s)) (S (S (next (world s)))) o2
        ∧ (startBrowser o2 = None -> setViewport o2 = None ->
           r = Ok (WithCancel (S (S (S (next (world s)))))
                     (WithCancel (S (S (next (world s)))) (ctx (tools s))))
           ∧ session_of (tools s'') (S (S (next (world s)))) (S (S (S (next (world s)))))).
Proof.
  intros Habs Hfail.
  assert (browserCtx (tools s) = None) as Hbc by apply Habs.
  assert (∀ s', tools s' = tools s -> next (world s') = S (S (next (world s))) ->
            ∀ o2, ∃ r s'',
              GetBrowserContext o2 s' = (Some r, s'')
              ∧ take 4 (new_effects s' s'') =
                  attempt_trace (ctx (tools s)) (S (S (next (world s)))) o2
              ∧ (startBrowser o2 = None -> setViewport o2 = None ->
                 r = Ok (WithCancel (S (S (S (next (world s)))))
                           (WithCancel (S (S (next (world s)))) (ctx (tools s))))
                 ∧ session_of (tools s'') (S (S (next (world s))))
                     (S (S (S (next (world s))))))) as Hnext.
  { intros s' Htools Hn o2.
    assert (browserCtx (tools s') = None) as Hbc' by (by rewrite Htools).
    destruct (GetBrowserContext_attempts o2 s' Hbc') as (r & s'' & Hrun & Htrace).
    exists r, s''. rewrite Htools, Hn in Htrace. split; [done |]. split; [done |].
    intros Hst Hvp. rewrite (GetBrowserContext_starts _ _ Hbc' Hst Hvp) in Hrun.
    injection Hrun as <- <-. rewrite Htools, Hn. split; [done |].
    unfold session_of. fields. rewrite ?Htools. by repeat split. }
  destruct (startBrowser o) as [e |] eqn:Hst.
  - eexists _, _. split; [by apply GetBrowserContext_start_fails |].
    destruct s as [b [n tr]]. fields. rewrite new_effects_app.
    unfold attempt_allocCancel, attempt_browserCancel. fields.
    split; [by intros e0 [= <-] |]. split; [by intros e0 [=] |].
    split; [done |]. split; [done |]. split; [unfold attempt_trace; elem_now |].
    split; [done |].
    split; [apply (done_ctx_cancel _ _ _ n); unfold attempt_trace; elem_now |].
    split; [apply (done_ctx_cancel _ _ _ n); unfold attempt_trace; elem_now |].
    split; [done |]. by apply Hnext.
  - destruct Hfail as [[? [=]] | [e Hvp]].
    eexists _, _. split; [by apply GetBrowserContext_viewport_fails |].
    destruct s as [b [n tr]]. fields. rewrite new_effects_app.
    unfold attempt_allocCancel, attempt_browserCancel. fields.
    split; [by intros e0 [=] |].
    split; [intros e0 _ Hvp'; rewrite Hvp in Hvp'; by injection Hvp' as <- |].
    split; [done |]. split; [done |]. split; [unfold attempt_trace; elem_now |].
    split.
    { intros _. exists (attempt_trace (ctx b) n o ++ [viewport_effect (ctx b) n o]).
      by rewrite <- app_assoc. }
    split; [apply (done_ctx_cancel _ _ _ n); unfold attempt_trace; elem_now |].
    split; [apply (done_ctx_cancel _ _ _ n); unfold attempt_trace; elem_now |].
    split; [done |]. by apply Hnext.
Qed.

(** C2, run on the two failures from a fresh manager. *)
Lemma startup_failure_rolls_back_witness :
  (session_absent (tools (fresh_manager))
   ∧ (is_Some (startBrowser no_browser) ∨ is_Some (setViewport no_browser))
   ∧ ∃ e s', GetBrowserContext no_browser (fresh_manager) = (Some (Err e), s')
       ∧ tools s' = tools (fresh_manager))
  ∧ (is_Some (startBrowser no_viewport) ∨ is_Some (setViewport no_viewport))
  ∧ ∃ e s', GetBrowserContext no_viewport (fresh_manager) = (Some (Err e), s')
      ∧ ECancel 2 ∈ new_effects (fresh_manager) s'.
Proof.
  assert (session_absent (tools (fresh_manager))) as Habs by (by repeat split).
  assert (is_Some (startBrowser no_browser) ∨ is_Some (setViewport no_browser)) as H1
    by (left; by eexists).
  assert (is_Some (startBrowser no_viewport) ∨ is_Some (setViewport no_viewport)) as H2
    by (right; by eexists).
  split; [split; [exact Habs | split; [exact H1 |]] | split; [exact H2 |]].
  - destruct (startup_failure_rolls_back no_browser _ Habs H1)
      as (e & s' & Hrun & _ & _ & Htools & _).
    by exists e, s'.
  - destruct (startup_failure_rolls_back no_viewport _ Habs H2)
      as (e & s' & Hrun & _ & _ & _ & _ & _ & Hboth & _).
    exists e, s'. split; [done |].
    destruct (Hboth eq_refl) as [mid ->]. elem_now.
Defined.

(** ** C3: the console-log buffer is a bounded FIFO *)

Lemma keep_last_length {A : Type} (cap : nat) (l : list A) :
  length (keep_last cap l) = Nat.min cap (length l).
Proof. unfold keep_last. rewrite length_drop. lia. Qed.

Lemma keep_last_all {A : Type} (cap : nat) (l : list A) :
  length l ≤ cap -> keep_last cap l = l.
Proof. intros Hle. unfold keep_last. by replace (length l - cap) with 0 by lia. Qed.

Lemma keep_last_suffix {A : Type} (cap : nat) (l : list A) :
  take (length l - cap) l ++ keep_last cap l = l.
Proof. apply take_drop. Qed.

Lemma keep_last_app {A : Type} (cap : nat) (l k : list A) :
  keep_last cap (keep_last cap l ++ k) = keep_last cap (l ++ k).
Proof.
  unfold keep_last at 2.
  rewrite <- (drop_app_le l k) by lia.
  unfold keep_last. rewrite drop_drop, length_drop, !length_app.
  f_equal. lia.
Qed.

Lemma captureConsoleLog_run (e : EventConsoleAPICalled) (s : State) :
  (0 ≤ maxConsoleLogs (tools s))%Z ->
  captureConsoleLog e s =
    (Some tt,
     mkState
       (set_consoleLogs
          (keep_last (Z.to_nat (maxConsoleLogs (tools s))) (consoleLogs (tools s) ++ [e]))
          (tools s))
       (world s)).
Proof.
  open_state s. fields. intros Hmx.
  unfold captureConsoleLog, slice_from. run_M. fields.
  destruct (Z.ltb_spec mx (Z.of_nat (length (cl ++ [e])))) as [Hlt | Hge].
  - replace ((0 <=? Z.of_nat (length (cl ++ [e])) - mx)%Z
             && (Z.of_nat (length (cl ++ [e])) - mx <=? Z.of_nat (length (cl ++ [e])))%Z)
      with true by (symmetry; apply andb_true_iff; split; apply Z.leb_le; lia).
    run_M. setters. unfold keep_last. do 4 f_equal. lia.
  - by rewrite keep_last_all by lia.
Qed.

Lemma captureAll_run (es : list EventConsoleAPICalled) (s : State) :
  (0 ≤ maxConsoleLogs (tools s))%Z ->
  length (consoleLogs (tools s)) ≤ Z.to_nat (maxConsoleLogs (tools s)) ->
  captureAll es s =
    (Some tt,
     mkState
       (set_consoleLogs
          (keep_last (Z.to_nat (maxConsoleLogs (tools s))) (consoleLogs (tools s) ++ es))
          (tools s))
       (world s)).
Proof.
  revert s. induction es as [| e es IH]; intros s Hmx Hlen.
  - cbn [captureAll]. rewrite app_nil_r, keep_last_all by done.
    by open_state s.
  - cbn [captureAll]. unfold mbind, M_bind.
    rewrite captureConsoleLog_run by done.
    rewrite IH; fields.
    + rewrite keep_last_app, <- app_assoc. by open_state s.
    + by open_state s.
    + open_state s. fields. rewrite keep_last_length. lia.
Qed.

(** C3. With the capacity of [NewBrowseTools] and a buffer within it, any
    sequence of captured events is accepted without a panic and leaves
    exactly the last 100 of the old events followed by the new ones, in
    order of arrival, so never more than 100; starting empty, 100 + K events
    leave the events after the first K. One capture at capacity drops the
    oldest event and appends the new one; below capacity it only appends.
    The capacity itself and the world are untouched. *)
Theorem console_logs_bounded_fifo (s : State) (es : list EventConsoleAPICalled) :
  maxConsoleLogs (tools s) = 100%Z ->
  length (consoleLogs (tools s)) ≤ 100 ->
  ∃ s',
    captureAll es s = (Some tt, s')
    ∧ length (consoleLogs (tools s')) ≤ 100
    ∧ consoleLogs (tools s') = keep_last 100 (consoleLogs (tools s) ++ es)
    ∧ maxConsoleLogs (tools s') = 100%Z
    ∧ world s' = world s
    ∧ (∀ K, consoleLogs (tools s) = [] -> length es = 100 + K ->
         consoleLogs (tools s') = drop K es
         ∧ length (consoleLogs (tools s')) = 100)
    ∧ (∀ e oldest rest,
         consoleLogs (tools s) = oldest :: rest ->
         length (consoleLogs (tools s)) = 100 ->
         ∃ s1, captureConsoleLog e s = (Some tt, s1)
           ∧ consoleLogs (tools s1) = rest ++ [e])
    ∧ (∀ e, length (consoleLogs (tools s)) < 100 ->
         ∃ s1, captureConsoleLog e s = (Some tt, s1)
           ∧ consoleLogs (tools s1) = consoleLogs (tools s) ++ [e]).
Proof.
  intros Hmx Hlen.
  assert ((0 ≤ maxConsoleLogs (tools s))%Z) as Hpos by lia.
  assert (Z.to_nat (maxConsoleLogs (tools s)) = 100) as Hcap by lia.
  eexists. split; [apply captureAll_run; [done | lia] |].
  rewrite Hcap. fields.
  split; [rewrite keep_last_length; lia |].
  split; [done |]. split; [done |]. split; [done |].
  split; [| split].
  - intros K -> HK. cbn [app]. unfold keep_last. rewrite length_drop, HK.
    replace (100 + K - 100) with K by lia. split; [done | lia].
  - intros e oldest rest Hcl Hfull. eexists.
    split; [by apply captureConsoleLog_run |].
    rewrite Hcap. fields. unfold keep_last.
    rewrite length_app, Hfull, Hcl. by cbn.
  - intros e Hlt. eexists.
    split; [by apply captureConsoleLog_run |].
    rewrite Hcap. fields. apply keep_last_all. rewrite length_app. cbn. lia.
Qed.

(** C3, run: 103 events into a fresh manager leave events 3 to 102. *)
Lemma console_logs_bounded_fifo_witness :
  maxConsoleLogs (tools fresh_manager) = 100%Z
  ∧ length (consoleLogs (tools fresh_manager)) ≤ 100
  ∧ ∃ s', captureAll (sample_events 103) fresh_manager = (Some tt, s')
      ∧ consoleLogs (tools s') = drop 3 (sample_events 103)
      ∧ length (consoleLogs (tools s')) = 100.
Proof.
  assert (maxConsoleLogs (tools fresh_manager) = 100%Z) as Hmx by reflexivity.
  assert (length (consoleLogs (tools fresh_manager)) ≤ 100) as Hlen by (cbn; lia).
  split; [exact Hmx | split; [exact Hlen |]].
  destruct (console_logs_bounded_fifo fresh_manager (sample_events 103) Hmx Hlen)
    as (s' & Hrun & _ & _ & _ & _ & Hk & _).
  exists s'. split; [exact Hrun |]. by apply Hk.
Defined.

(** ** Acquiring the session leaves the registries alone *)

Lemma GetBrowserContext_frame (o : Startup) (s : State) :
  ∃ r s', GetBrowserContext o s = (Some r, s')
    ∧ consoleLogs (tools s') = consoleLogs (tools s)
    ∧ screenshots (tools s') = screenshots (tools s)
    ∧ maxConsoleLogs (tools s') = maxConsoleLogs (tools s)
    ∧ maxImageDimension (tools s') = maxImageDimension (tools s).
Proof.
  destruct (browserCtx (tools s)) as [c |] eqn:Hbc;
    [| destruct (startBrowser o) as [e |] eqn:Hst;
       [| destruct (setViewport o) as [e |] eqn:Hvp]].
  - eexists _, _. split; [by apply GetBrowserContext_existing | by fields].
  - eexists _, _. split; [by apply GetBrowserContext_start_fails | by fields].
  - eexists _, _. split; [by apply GetBrowserContext_viewport_fails | by fields].
  - eexists _, _. split; [by apply GetBrowserContext_starts | by fields].
Qed.

(** ** C5 and C6: reading and clearing the console logs *)

Lemma recentConsoleLogs_run (limit : Z) (s : State) :
  (0 < limit)%Z ->
  recentConsoleLogs limit s =
    (Some (keep_last (Z.to_nat limit) (consoleLogs (tools s))), s).
Proof.
  intros Hpos. unfold recentConsoleLogs, slice_from. run_M.
  change (let (tools, _) := s in tools) with (tools s).
  set (cl := consoleLogs (tools s)).
  destruct (Z.ltb_spec limit (Z.of_nat (length cl))) as [Hlt | Hge].
  - replace ((0 <=? Z.of_nat (length cl) - limit)%Z
             && (Z.of_nat (length cl) - limit <=? Z.of_nat (length cl))%Z)
      with true by (symmetry; apply andb_true_iff; split; apply Z.leb_le; lia).
    run_M. cbn [app]. unfold keep_last. do 3 f_equal. lia.
  - cbn. replace (0 <=? Z.of_nat (length cl))%Z with true
      by (symmetry; apply Z.leb_le; lia).
    cbn. by rewrite keep_last_all by lia.
Qed.

Lemma clearConsoleLogs_run (s : State) :
  clearConsoleLogs s =
    (Some (length (consoleLogs (tools s))),
     mkState (set_consoleLogs [] (tools s)) (world s)).
Proof. by open_state s. Qed.

Lemma append_length (s t : string) :
  String.length (s +:+ t) = String.length s + String.length t.
Proof.
  induction s as [| a s IH]; [done |].
  change (String a s +:+ t) with (String a (s +:+ t)).
  cbn [String.length Nat.add]. by rewrite IH.
Qed.

Lemma append_inv_tail (s1 s2 t : string) : s1 +:+ t = s2 +:+ t -> s1 = s2.
Proof.
  revert s2. induction s1 as [| a s1 IH]; intros [| b s2] Heq.
  - reflexivity.
  - apply (f_equal String.length) in Heq. rewrite !append_length in Heq.
    cbn in Heq. lia.
  - apply (f_equal String.length) in Heq. rewrite !append_length in Heq.
    cbn in Heq. lia.
  - change (String a (s1 +:+ t) = String b (s2 +:+ t)) in Heq.
    injection Heq as -> Heq. f_equal. by apply IH.
Qed.

Section ToolTheorems.

Context {lib : Library}.

(** C5. For a positive [limit], the locked block of [recentConsoleLogsRun]
    returns without a panic, changes nothing, and yields at most [limit]
    events, namely the stored sequence from offset [storedCount - limit] on
    when more than [limit] are stored and the whole sequence otherwise; what
    it yields is a suffix of the stored sequence, so order is kept. Once
    the session is acquired and the events serialise, the tool answers with
    the text made from exactly these events. *)
Theorem recent_logs_are_latest (o : Answers) (s : State) (limit : Z) :
  (0 < limit)%Z ->
  ∃ logs,
    recentConsoleLogs limit s = (Some logs, s)
    ∧ (Z.of_nat (length logs) ≤ limit)%Z
    ∧ (∃ older, consoleLogs (tools s) = older ++ logs)
    ∧ ((limit < Z.of_nat (length (consoleLogs (tools s))))%Z ->
       logs = drop (Z.to_nat (Z.of_nat (length (consoleLogs (tools s))) - limit))
                (consoleLogs (tools s))
       ∧ Z.of_nat (length logs) = limit)
    ∧ ((Z.of_nat (length (consoleLogs (tools s))) ≤ limit)%Z ->
       logs = consoleLogs (tools s))
    ∧ (∀ c s1 logData,
         GetBrowserContext (startup o) s = (Some (Ok c), s1) ->
         json_MarshalIndent logs = Ok logData ->
         recentConsoleLogsRun o (Ok (mkRecentConsoleLogsInput limit)) s =
           (Some (TextOut (recentLogsText logs logData)), s1)).
Proof.
  intros Hpos. exists (keep_last (Z.to_nat limit) (consoleLogs (tools s))).
  split; [by apply recentConsoleLogs_run |].
  split; [rewrite keep_last_length; lia |].
  split; [eexists; symmetry; apply keep_last_suffix |].
  split; [| split].
  - intros Hlt. unfold keep_last. rewrite length_drop.
    split; [f_equal |]; lia.
  - intros Hle. apply keep_last_all. lia.
  - intros c s1 logData Hget Hjson.
    destruct (GetBrowserContext_frame (startup o) s) as (r & s1' & Hrun & Hcl & _).
    rewrite Hget in Hrun. injection Hrun as <- <-.
    unfold recentConsoleLogsRun. unfold mbind at 1, M_bind. rewrite Hget.
    cbn [Limit]. replace (0 <? limit)%Z with true by (symmetry; apply Z.ltb_lt; lia).
    unfold mbind, M_bind. rewrite recentConsoleLogs_run by done.
    rewrite Hcl, Hjson. reflexivity.
Qed.

(** C6. The locked block of [clearConsoleLogsRun] returns the number of
    events stored when it runs and leaves the stored sequence empty, so
    that reading the logs afterwards yields no event, whatever the positive
    limit. Once the session is acquired, the tool answers with the text
    made from the number of events stored at the call, leaves the sequence
    empty and everything else as the acquisition left it. The text
    determines the number. *)
Theorem clear_reports_count (o : Answers) (s : State) :
  clearConsoleLogs s =
    (Some (length (consoleLogs (tools s))),
     mkState (set_consoleLogs [] (tools s)) (world s))
  ∧ (∀ limit, (0 < limit)%Z ->
       recentConsoleLogs limit (mkState (set_consoleLogs [] (tools s)) (world s)) =
         (Some [], mkState (set_consoleLogs [] (tools s)) (world s)))
  ∧ (∀ c s1,
       GetBrowserContext (startup o) s = (Some (Ok c), s1) ->
       clearConsoleLogsRun o (Ok tt) s =
         (Some (TextOut (clearedText (length (consoleLogs (tools s))))),
          mkState (set_consoleLogs [] (tools s1)) (world s1))
       ∧ consoleLogs (tools (snd (clearConsoleLogsRun o (Ok tt) s))) = [])
  ∧ (∀ n m, clearedText n = clearedText m -> n = m).
Proof.
  split; [apply clearConsoleLogs_run |].
  split; [intros limit Hpos; by rewrite recentConsoleLogs_run |].
  split.
  - intros c s1 Hget.
    destruct (GetBrowserContext_frame (startup o) s) as (r & s1' & Hrun & Hcl & _).
    rewrite Hget in Hrun. injection Hrun as <- <-.
    assert (clearConsoleLogsRun o (Ok tt) s =
              (Some (TextOut (clearedText (length (consoleLogs (tools s))))),
               mkState (set_consoleLogs [] (tools s1)) (world s1))) as Hclear.
    { unfold clearConsoleLogsRun. unfold mbind at 1, M_bind. rewrite Hget.
      unfold mbind, M_bind. rewrite clearConsoleLogs_run, Hcl. reflexivity. }
    split; [exact Hclear | by rewrite Hclear].
  - intros n m Htext. unfold clearedText in Htext.
    injection Htext as Htext.
    change (pretty n +:+ " console log entries."
            = pretty m +:+ " console log entries.") in Htext.
    apply append_inv_tail in Htext.
    by apply (inj pretty) in Htext.
Qed.

End ToolTheorems.

(** ** C7: the screenshot registry records what was written *)

Lemma UUID_to_string_nonempty (u : UUID.t) : UUID.to_string u ≠ ""%string.
Proof. unfold UUID.to_string, UUID.hex_range, UUID.hex. cbn. discriminate. Qed.

Lemma UUID_to_string_length (u : UUID.t) : String.length (UUID.to_string u) = 36.
Proof. unfold UUID.to_string, UUID.hex_range, UUID.hex. reflexivity. Qed.

Lemma SaveScreenshot_write_fails (o : Saving) (data : list Byte.byte) (s : State) (e : error) :
  writeFile o = Some e ->
  SaveScreenshot o data s =
    (Some ""%string,
     mkState (tools s)
       (mkWorld (next (world s))
          (trace (world s)
             ++ [EWriteFile (GetScreenshotPath (UUID.to_string (uuid_New o))) data (Some e)]))).
Proof.
  intros Hw. open_state s. unfold SaveScreenshot. rewrite Hw. reflexivity.
Qed.

Lemma SaveScreenshot_written (o : Saving) (data : list Byte.byte) (s : State) :
  writeFile o = None ->
  SaveScreenshot o data s =
    (Some (UUID.to_string (uuid_New o)),
     mkState
       (set_screenshots
          (<[UUID.to_string (uuid_New o) := time_Now o]> (screenshots (tools s)))
          (tools s))
       (mkWorld (next (world s))
          (trace (world s)
             ++ [EWriteFile (GetScreenshotPath (UUID.to_string (uuid_New o))) data None]))).
Proof.
  intros Hw. open_state s. unfold SaveScreenshot. rewrite Hw. reflexivity.
Qed.

Section ScreenshotTheorems.

Context {lib : Library}.

(** C7. [SaveScreenshot] always returns, and returns the empty string
    exactly when the write fails. When the write fails the manager is left
    as it was, registry included. When the write succeeds the identifier
    is the rendering of the UUID that was drawn, and the registry is the
    old one with this identifier bound to the current time. The only effect
    on the outside is the one write to the file named after the identifier.
    In [screenshotRun], once the session is acquired and the capture
    succeeded, a failed write becomes the tool error "failed to save
    screenshot" and the registry is as before the call. *)
Theorem SaveScreenshot_empty_iff_write_fails
    (o : Answers) (input : screenshotInput) (data : list Byte.byte) (s : State) :
  (∃ id s',
     SaveScreenshot (saving o) data s = (Some id, s')
     ∧ (id = ""%string <-> is_Some (writeFile (saving o)))
     ∧ (is_Some (writeFile (saving o)) -> tools s' = tools s)
     ∧ (writeFile (saving o) = None ->
        id = UUID.to_string (uuid_New (saving o))
        ∧ tools s' =
            set_screenshots
              (<[id := time_Now (saving o)]> (screenshots (tools s))) (tools s)
        ∧ screenshots (tools s') !! id = Some (time_Now (saving o)))
     ∧ new_effects s s' =
         [EWriteFile (GetScreenshotPath (UUID.to_string (uuid_New (saving o))))
            data (writeFile (saving o))])
  ∧ (∀ c s1,
       GetBrowserContext (startup o) s = (Some (Ok c), s1) ->
       run o = None ->
       is_Some (writeFile (saving o)) ->
       ∃ s2, screenshotRun o (Ok input) s =
               (Some (ErrorToolOut "failed to save screenshot"), s2)
         ∧ screenshots (tools s2) = screenshots (tools s)).
Proof.
  split.
  - destruct (writeFile (saving o)) as [e |] eqn:Hw.
    + eexists _, _. split; [by apply SaveScreenshot_write_fails |].
      split; [split; [by eexists | done] |].
      split; [done |]. split; [done |].
      destruct s as [b [n tr]]. fields. by rewrite new_effects_app.
    + eexists _, _. split; [by apply SaveScreenshot_written |].
      split.
      { split; [intros Hid; by apply UUID_to_string_nonempty in Hid |].
        by intros [? [=]]. }
      split; [by intros [? [=]] |].
      split.
      { intros _. split; [done |]. split; [done |].
        fields. unfold set_screenshots. fields. apply lookup_insert_eq. }
      destruct s as [b [n tr]]. fields. by rewrite new_effects_app.
  - intros c s1 Hget Hrun [e Hw].
    destruct (GetBrowserContext_frame (startup o) s) as (r & s1' & Hrun' & _ & Hsh & _).
    rewrite Hget in Hrun'. injection Hrun' as <- <-.
    unfold screenshotRun. unfold mbind at 1, M_bind. rewrite Hget.
    destruct s1 as [b1 [n1 tr1]].
    run_M. rewrite Hrun, (SaveScreenshot_write_fails _ _ _ _ Hw).
    eexists. split; [reflexivity |]. exact Hsh.
Qed.

End ScreenshotTheorems.

(** ** Ports of hosts *)

Lemma append_cons (a : ascii) (s t : string) :
  String a s +:+ t = String a (s +:+ t).
Proof. reflexivity. Qed.

Lemma substring_all (t : string) : String.substring 0 (String.length t) t = t.
Proof. induction t as [| a t IH]; cbn; [done | f_equal; exact IH]. Qed.

Lemma from_append (s t : string) : Strings.from (String.length s) (s +:+ t) = t.
Proof.
  unfold Strings.from. rewrite append_length.
  replace (String.length s + String.length t - String.length s)
    with (String.length t) by lia.
  induction s as [| a s IH]; [apply substring_all | rewrite append_cons; exact IH].
Qed.

Lemma LastIndexByte_digits (i : nat) (p : string) :
  Strings.all Strings.is_digit p = true ->
  Strings.LastIndexByte_from i p ":" = None.
Proof.
  revert i. induction p as [| a p IH]; intros i Hp; cbn in *; [done |].
  apply andb_true_iff in Hp as [Ha Hp]. rewrite (IH _ Hp).
  destruct (Ascii.eqb_spec a ":") as [-> |]; [discriminate Ha | done].
Qed.

Lemma LastIndexByte_port (i : nat) (h p : string) :
  Strings.all Strings.is_digit p = true ->
  Strings.LastIndexByte_from i (h +:+ String ":" p) ":" = Some (i + String.length h).
Proof.
  intros Hp. revert i. induction h as [| a h IH]; intros i.
  - change (EmptyString +:+ String ":" p) with (String ":" p).
    cbn [Strings.LastIndexByte_from].
    rewrite (LastIndexByte_digits _ _ Hp). cbn. f_equal. lia.
  - rewrite append_cons. cbn [Strings.LastIndexByte_from String.length].
    rewrite IH. f_equal. lia.
Qed.

Lemma from_S_append (h p : string) (c : ascii) :
  Strings.from (S (String.length h)) (h +:+ String c p) = p.
Proof.
  unfold Strings.from. rewrite append_length. cbn [String.length].
  replace (String.length h + S (String.length p) - S (String.length h))
    with (String.length p) by lia.
  induction h as [| a h IH]; [apply substring_all | rewrite append_cons; exact IH].
Qed.

(** A host that ends in a colon and digits has these digits as its port. *)
Lemma Port_explicit (u : URL.t) (h p : string) :
  URL.Host u = h +:+ String ":" p ->
  Strings.all Strings.is_digit p = true ->
  URL.Port u = p.
Proof.
  intros Hhost Hp. unfold URL.Port, URL.splitHostPort, Strings.LastIndexByte.
  rewrite Hhost, (LastIndexByte_port 0 h p Hp). cbn [Nat.add].
  rewrite from_append, from_S_append.
  change (URL.validOptionalPort (String ":" p))
    with (Ascii.eqb ":" ":" && Strings.all Strings.is_digit p).
  rewrite Hp. cbn [Ascii.eqb andb Bool.eqb].
  by destruct (_ && _).
Qed.

(** A host without a colon has no port. *)
Lemma Port_none (u : URL.t) :
  Strings.LastIndexByte (URL.Host u) ":" = None -> URL.Port u = ""%string.
Proof.
  intros Hnone. unfold URL.Port, URL.splitHostPort. rewrite Hnone.
  by destruct (_ && _).
Qed.

(** ** C4, C8 and C10: the port check and the timeout of a call *)

Section NavigateTheorems.

Context {lib : Library}.

Lemma navigateRun_rejects (o : Answers) (input : navigateInput) (s : State) :
  isPort80 (nav_URL input) = true ->
  navigateRun o (Ok input) s = (Some (ErrorToolOut port80_message), s).
Proof. intros Hp. unfold navigateRun. by rewrite Hp. Qed.

Lemma navigateRun_proceeds (o : Answers) (input : navigateInput) (s : State) :
  isPort80 (nav_URL input) = false ->
  navigate_acquires o input s.
Proof.
  intros Hp. unfold navigate_acquires, navigateRun. rewrite Hp.
  destruct (GetBrowserContext_frame (startup o) s) as (r & s1 & Hget & _).
  exists r, s1. split; [exact Hget |].
  destruct r as [c | e]; unfold mbind at 1, M_bind; rewrite Hget; [| reflexivity].
  destruct s1 as [b1 [n1 tr1]]. run_M. fields.
  rewrite <- !app_assoc. by destruct (run o).
Qed.

(** C4. For a URL that parses: if its port is "80", or it has no port and
    the scheme is http, the port check fires and [navigateRun] returns the
    port-80 error with the manager and the world exactly as they were, so
    before any session is asked for. This is the case of a host that ends
    in ":80", and of an http URL whose host has no colon. If the port is
    neither "80" nor empty, as for a host that ends in ":8080", the port
    check lets the URL through and [navigateRun] goes on to ask for the
    session. *)
Theorem navigate_rejects_port_80
    (o : Answers) (input : navigateInput) (s : State) (u : URL.t) :
  url_Parse (nav_URL input) = Ok u ->
  (URL.Port u = "80"%string
   ∨ (URL.Port u = ""%string ∧ URL.Scheme u = "http"%string) ->
   isPort80 (nav_URL input) = true
   ∧ navigateRun o (Ok input) s = (Some (ErrorToolOut port80_message), s))
  ∧ (∀ h, URL.Host u = h +:+ ":80" ->
       isPort80 (nav_URL input) = true
       ∧ navigateRun o (Ok input) s = (Some (ErrorToolOut port80_message), s))
  ∧ (Strings.LastIndexByte (URL.Host u) ":" = None ->
     URL.Scheme u = "http"%string ->
     isPort80 (nav_URL input) = true
     ∧ navigateRun o (Ok input) s = (Some (ErrorToolOut port80_message), s))
  ∧ (URL.Port u ≠ "80"%string -> URL.Port u ≠ ""%string ->
     isPort80 (nav_URL input) = false
     ∧ navigate_acquires o input s)
  ∧ (∀ h p, URL.Host u = h +:+ String ":" p ->
       Strings.all Strings.is_digit p = true ->
       p ≠ "80"%string -> p ≠ ""%string ->
       isPort80 (nav_URL input) = false
       ∧ navigate_acquires o input s).
Proof.
  intros Hparse.
  assert (isPort80 (nav_URL input) =
            (String.eqb (URL.Port u) "80"
             || (String.eqb (URL.Port u) "" && String.eqb (URL.Scheme u) "http")))
    as Hcheck by (unfold isPort80; by rewrite Hparse).
  assert (URL.Port u = "80"%string
          ∨ (URL.Port u = ""%string ∧ URL.Scheme u = "http"%string) ->
          isPort80 (nav_URL input) = true
          ∧ navigateRun o (Ok input) s = (Some (ErrorToolOut port80_message), s))
    as Hreject.
  { intros Hport.
    assert (isPort80 (nav_URL input) = true) as Hp.
    { rewrite Hcheck. destruct Hport as [-> | [-> ->]]; reflexivity. }
    split; [exact Hp | by apply navigateRun_rejects]. }
  assert (URL.Port u ≠ "80"%string -> URL.Port u ≠ ""%string ->
          isPort80 (nav_URL input) = false ∧ navigate_acquires o input s)
    as Haccept.
  { intros H80 Hempty.
    assert (isPort80 (nav_URL input) = false) as Hp.
    { rewrite Hcheck.
      apply String.eqb_neq in H80. apply String.eqb_neq in Hempty.
      by rewrite H80, Hempty. }
    split; [exact Hp | by apply navigateRun_proceeds]. }
  split; [exact Hreject |]. split; [| split; [| split; [exact Haccept |]]].
  - intros h Hhost. apply Hreject. left. by apply (Port_explicit u h "80").
  - intros Hnone Hscheme. apply Hreject. right. split; [by apply Port_none | done].
  - intros h p Hhost Hdigits H80 Hempty.
    rewrite <- (Port_explicit u h p Hhost Hdigits) in H80, Hempty.
    by apply Haccept.
Qed.

(** C10. A URL that does not parse is not a port-80 URL for [isPort80],
    and neither is a URL that parses with scheme https and no port, as when
    its host has no colon; in these cases [navigateRun] gets past the port
    check and asks for the session. *)
Theorem navigate_passes_unparsed_and_https
    (o : Answers) (input : navigateInput) (s : State) :
  (∀ e, url_Parse (nav_URL input) = Err e ->
        isPort80 (nav_URL input) = false ∧ navigate_acquires o input s)
  ∧ (∀ u, url_Parse (nav_URL input) = Ok u ->
          URL.Scheme u = "https"%string -> URL.Port u = ""%string ->
          isPort80 (nav_URL input) = false ∧ navigate_acquires o input s)
  ∧ (∀ u, url_Parse (nav_URL input) = Ok u ->
          URL.Scheme u = "https"%string ->
          Strings.LastIndexByte (URL.Host u) ":" = None ->
          isPort80 (nav_URL input) = false ∧ navigate_acquires o input s).
Proof.
  assert (∀ u, url_Parse (nav_URL input) = Ok u ->
               URL.Scheme u = "https"%string -> URL.Port u = ""%string ->
               isPort80 (nav_URL input) = false ∧ navigate_acquires o input s)
    as Hhttps.
  { intros u Hparse Hscheme Hport.
    assert (isPort80 (nav_URL input) = false) as Hp
      by (unfold isPort80; by rewrite Hparse, Hscheme, Hport).
    split; [exact Hp | by apply navigateRun_proceeds]. }
  split; [| split; [exact Hhttps |]].
  - intros e Hparse.
    assert (isPort80 (nav_URL input) = false) as Hp
      by (unfold isPort80; by rewrite Hparse).
    split; [exact Hp | by apply navigateRun_proceeds].
  - intros u Hparse Hscheme Hnone. apply (Hhttps u); [done | done |].
    by apply Port_none.
Qed.

(** C8. [parseTimeout] is 15 seconds on every string that
    [time.ParseDuration] rejects, the empty string included when the
    parser rejects it as Go's does, and the parsed duration on every string
    it accepts. A navigation with a rejected timeout string is not failed
    for it: once past the port check and with the session acquired, it runs
    under a timeout of 15 seconds. *)
Theorem parseTimeout_default (timeout : string) :
  (∀ e, time_ParseDuration timeout = Err e ->
        parseTimeout timeout = 15000000000%Z)
  ∧ (∀ d, time_ParseDuration timeout = Ok d -> parseTimeout timeout = d)
  ∧ ((∃ e, time_ParseDuration "" = Err e) -> parseTimeout "" = 15000000000%Z)
  ∧ (∀ e o url s c s1,
       time_ParseDuration timeout = Err e ->
       isPort80 url = false ->
       GetBrowserContext (startup o) s = (Some (Ok c), s1) ->
       ∃ out s2,
         navigateRun o (Ok (mkNavigateInput url timeout)) s = (Some out, s2)
         ∧ new_effects s1 s2 !! 0 =
             Some (EWithTimeout c 15000000000%Z (next (world s1)))).
Proof.
  assert (∀ t e, time_ParseDuration t = Err e -> parseTimeout t = 15000000000%Z)
    as Hdefault by (intros t e Ht; unfold parseTimeout; by rewrite Ht).
  split; [by apply Hdefault |].
  split; [intros d Ht; unfold parseTimeout; by rewrite Ht |].
  split; [intros [e He]; by apply (Hdefault _ e) |].
  intros e o url s c s1 Ht Hp Hget.
  destruct (navigateRun_proceeds o (mkNavigateInput url timeout) s Hp)
    as (r & s1' & Hget' & Hrun).
  rewrite Hget in Hget'. injection Hget' as <- <-.
  eexists _, _. split; [exact Hrun |].
  cbn [nav_Timeout]. rewrite (Hdefault _ _ Ht).
  destruct s1 as [b1 [n1 tr1]]. fields. by rewrite new_effects_app.
Qed.

End NavigateTheorems.

(** ** Every operation of the manager keeps it well formed *)

Lemma benign_refl s : benign s s.
Proof.
  split; try done. exists []. split; [by rewrite app_nil_r | constructor].
Qed.

Lemma quiet_created (lo hi n : nat) (tail : list Effect) :
  Forall (quiet lo hi) tail -> created (mkWorld n tail) = [].
Proof.
  unfold created. cbn [trace].
  induction 1 as [| e tail He _ IH]; [done |].
  destruct e; cbn in *; done.
Qed.

Lemma quiet_cancel (lo hi : nat) (tail : list Effect) (f : CancelFunc) :
  Forall (quiet lo hi) tail -> ECancel f ∈ tail -> lo ≤ f < hi.
Proof.
  intros Hq Hf. rewrite Forall_forall in Hq. exact (Hq _ Hf).
Qed.

Lemma session_inv_benign root s s' :
  session_inv root s -> benign s s' -> session_inv root s'.
Proof.
  intros [Hctx Hnext Hshape Hcancel Hcreated]
         [Bctx Bac Baf Bbc Bbf _ _ _ Bnext (tail & Btr & Bq)].
  destruct s as [b [n tr]], s' as [b' [n' tr']]. fields. subst tr'.
  assert (created (mkWorld n' (tr ++ tail)) = created (mkWorld n tr)) as Hsame.
  { by rewrite (created_app _ n), (quiet_created _ _ _ _ Bq), app_nil_r. }
  assert (∀ f, cancel_called (mkWorld n' (tr ++ tail)) f ->
               cancel_called (mkWorld n tr) f ∨ n ≤ f < n') as Hsplit.
  { intros f Hf. apply (cancel_called_app n) in Hf as [Hf | Hf]; [by left | right].
    by apply (quiet_cancel _ _ tail). }
  split; fields.
  - congruence.
  - lia.
  - unfold session_absent, session_of in *. rewrite Bctx, Bac, Baf, Bbc, Bbf, Hsame.
    destruct Hshape as [Ha | (i & j & Hs & Hi & Hj & Hci & Hcj & Hin)]; [by left | right].
    exists i, j. split; [done |]. split; [lia |]. split; [lia |].
    split; [intros Hc; destruct (Hsplit _ Hc); [done | lia] |].
    split; [intros Hc; destruct (Hsplit _ Hc); [done | lia] |]. done.
  - intros f Hf. destruct (Hsplit f Hf) as [Hold | Hnew]; [| lia].
    specialize (Hcancel f Hold). lia.
  - intros c Hc. rewrite Hsame in Hc. rewrite Bac, Bbc.
    destruct (Hcreated c Hc) as [Hd | Hf]; [left | by right].
    by apply (done_ctx_app n).
Qed.

Lemma timer_inv_benign s s' : timer_inv s -> benign s s' -> timer_inv s'.
Proof.
  intros [Hset Hpending] [_ _ _ Bbc _ Btm _ _ _ (tail & Btr & Bq)].
  split.
  - by rewrite Btm, Bbc.
  - intros d t Ht. rewrite Btr in Ht. rewrite Btr, Btm.
    apply elem_of_app in Ht as [Ht | Ht].
    + destruct (Hpending d t Ht) as [Hs | Hheld]; [left; elem_now | by right].
    + rewrite Forall_forall in Bq. by destruct (Bq _ Ht).
Qed.

Lemma manager_inv_benign root s s' :
  manager_inv root s -> benign s s' -> manager_inv root s'.
Proof.
  intros [Hs Ht Hc Hl] Hb. split.
  - by apply (session_inv_benign root s).
  - by apply (timer_inv_benign s).
  - by rewrite (benign_maxConsoleLogs _ _ Hb).
  - pose proof (benign_logs _ _ Hb). lia.
Qed.

Lemma manager_inv_get root o s :
  manager_inv root s ->
  ∃ r s', GetBrowserContext o s = (Some r, s') ∧ manager_inv root s'.
Proof.
  intros [Hs Ht Hc Hl].
  destruct (GetBrowserContext_frame o s) as (r & s' & Hget & Hlogs & _ & Hcap & _).
  exists r, s'. split; [done |].
  assert (s' = snd (GetBrowserContext o s)) as -> by (by rewrite Hget).
  split; [by apply session_inv_get | by apply timer_inv_get | congruence | by rewrite Hlogs].
Qed.

Section Operations.

Context {lib : Library}.

Lemma navigateRun_benign (o : Answers) (m : result navigateInput) (s : State) :
  ∃ out s2, navigateRun o m s = (Some out, s2)
    ∧ (benign s s2
       ∨ ∃ r s1, GetBrowserContext (startup o) s = (Some r, s1) ∧ benign s1 s2).
Proof.
  destruct m as [input | e]; [| eexists _, _; split; [reflexivity | left; apply benign_refl]].
  destruct (isPort80 (nav_URL input)) eqn:Hp.
  { eexists _, _. split; [by apply navigateRun_rejects | left; apply benign_refl]. }
  destruct (navigateRun_proceeds o input s Hp) as (r & s1 & Hget & Hrun).
  destruct r as [c | e].
  - eexists _, _. split; [exact Hrun |]. right. exists (Ok c), s1. split; [done |].
    destruct s1 as [b1 [n1 tr1]]. benign_now.
  - eexists _, _. split; [exact Hrun |]. right. exists (Err e), s1. split; [done |].
    apply benign_refl.
Qed.

Lemma recentConsoleLogsRun_benign (o : Answers) (m : result recentConsoleLogsInput) (s : State) :
  ∃ out s2, recentConsoleLogsRun o m s = (Some out, s2)
    ∧ (benign s s2
       ∨ ∃ r s1, GetBrowserContext (startup o) s = (Some r, s1) ∧ benign s1 s2).
Proof.
  destruct m as [input | e]; [| eexists _, _; split; [reflexivity | left; apply benign_refl]].
  destruct (GetBrowserContext_frame (startup o) s) as (r & s1 & Hget & _).
  unfold recentConsoleLogsRun. unfold mbind at 1, M_bind. rewrite Hget.
  destruct r as [c | e].
  - unfold mbind, M_bind. rewrite recentConsoleLogs_run by (by destruct (0 <? Limit input)%Z eqn:Hl; [apply Z.ltb_lt |]).
    destruct (json_MarshalIndent _); eexists _, _; (split; [reflexivity |]);
      right; exists (Ok c), s1; (split; [done | apply benign_refl]).
  - eexists _, _. split; [reflexivity |]. right. exists (Err e), s1.
    split; [done | apply benign_refl].
Qed.

Lemma clearConsoleLogsRun_benign (o : Answers) (m : result unit) (s : State) :
  ∃ out s2, clearConsoleLogsRun o m s = (Some out, s2)
    ∧ (benign s s2
       ∨ ∃ r s1, GetBrowserContext (startup o) s = (Some r, s1) ∧ benign s1 s2).
Proof.
  destruct m as [input | e]; [| eexists _, _; split; [reflexivity | left; apply benign_refl]].
  destruct (GetBrowserContext_frame (startup o) s) as (r & s1 & Hget & _).
  unfold clearConsoleLogsRun. unfold mbind at 1, M_bind. rewrite Hget.
  destruct r as [c | e].
  - unfold mbind, M_bind. rewrite clearConsoleLogs_run.
    eexists _, _. split; [reflexivity |]. right. exists (Ok c), s1. split; [done |].
    destruct s1 as [b1 [n1 tr1]]. split; fields; try done; try (cbn; lia).
    exists []. split; [by rewrite app_nil_r | constructor].
  - eexists _, _. split; [reflexivity |]. right. exists (Err e), s1.
    split; [done | apply benign_refl].
Qed.

Lemma SaveScreenshot_benign (o : Saving) (data : list Byte.byte) (s : State) :
  ∃ id s2, SaveScreenshot o data s = (Some id, s2) ∧ benign s s2.
Proof.
  destruct (writeFile o) as [e |] eqn:Hw.
  - eexists _, _. split; [by apply SaveScreenshot_write_fails |].
    destruct s as [b [n tr]]. benign_now.
  - eexists _, _. split; [by apply SaveScreenshot_written |].
    destruct s as [b [n tr]]. benign_now.
Qed.

Lemma screenshotRun_benign (o : Answers) (m : result screenshotInput) (s : State) :
  ∃ out s2, screenshotRun o m s = (Some out, s2)
    ∧ (benign s s2
       ∨ ∃ r s1, GetBrowserContext (startup o) s = (Some r, s1) ∧ benign s1 s2).
Proof.
  destruct m as [input | e]; [| eexists _, _; split; [reflexivity | left; apply benign_refl]].
  destruct (GetBrowserContext_frame (startup o) s) as (r & s1 & Hget & _).
  unfold screenshotRun. unfold mbind at 1, M_bind. rewrite Hget.
  destruct r as [c | e].
  2:{ eexists _, _. split; [reflexivity |]. right. exists (Err e), s1.
      split; [done | apply benign_refl]. }
  destruct s1 as [b1 [n1 tr1]]. run_M.
  destruct (run o) as [e |].
  { eexists _, _. split; [reflexivity |]. right. eexists (Ok c), _. split; [done |].
    benign_now. }
  destruct (writeFile (saving o)) as [e |] eqn:Hw.
  - rewrite (SaveScreenshot_write_fails _ _ _ _ Hw).
    eexists _, _. split; [reflexivity |]. right. eexists (Ok c), _. split; [done |].
    benign_now.
  - rewrite (SaveScreenshot_written _ _ _ Hw).
    rewrite (proj2 (String.eqb_neq _ _) (UUID_to_string_nonempty _)).
    fields.
    destruct (if (0 <? maxImageDimension b1)%Z then _ else _) as [[[imageData format] resized] | e];
      eexists _, _; (split; [reflexivity |]); right; eexists (Ok c), _;
      (split; [done |]); benign_now.
Qed.

End Operations.

Lemma session_inv_set_consoleLogs root s l :
  session_inv root s ->
  session_inv root (mkState (set_consoleLogs l (tools s)) (world s)).
Proof.
  intros [Hctx Hnext Hshape Hcancel Hcreated]. by split.
Qed.

Lemma timer_inv_set_consoleLogs s l :
  timer_inv s -> timer_inv (mkState (set_consoleLogs l (tools s)) (world s)).
Proof. intros [Hset Hpending]. by split. Qed.

Section Reachability.

Context {lib : Library}.

Lemma manager_inv_after_get root (o : Answers) s s2 :
  manager_inv root s ->
  benign s s2
  ∨ (∃ r s1, GetBrowserContext (startup o) s = (Some r, s1) ∧ benign s1 s2) ->
  manager_inv root s2.
Proof.
  intros Hinv [Hb | (r & s1 & Hget & Hb)].
  - by apply (manager_inv_benign root s).
  - destruct (manager_inv_get root (startup o) s Hinv) as (r' & s1' & Hget' & Hinv1).
    rewrite Hget in Hget'. injection Hget' as <- <-.
    by apply (manager_inv_benign root s1).
Qed.

Lemma manager_inv_perform root (op : Op) (s : State) :
  manager_inv root s ->
  ∃ s', perform op s = (Some tt, s') ∧ manager_inv root s'.
Proof.
  intros Hinv. destruct op as [o | | | e | o data | o m | o m | o m | o m]; cbn [perform].
  - destruct (manager_inv_get root o s Hinv) as (r & s' & Hget & Hinv').
    exists s'. unfold mbind, M_bind. by rewrite Hget.
  - destruct Hinv as [Hs Ht Hc Hl].
    exists (snd (closeBrowserLocked s)). unfold Close.
    split; [by rewrite closeBrowserLocked_run |].
    split; [by apply session_inv_close | by apply timer_inv_close | |];
      by rewrite closeBrowserLocked_run.
  - destruct Hinv as [Hs Ht Hc Hl].
    exists (snd (idleShutdown s)).
    split; [rewrite idleShutdown_run; destruct (browserCtx (tools s));
            [by rewrite closeBrowserLocked_run | done] |].
    split; [by apply session_inv_idleShutdown | by apply (timer_inv_step CallIdleShutdown) | |];
      rewrite idleShutdown_run; destruct (browserCtx (tools s));
      by rewrite ?closeBrowserLocked_run.
  - destruct Hinv as [Hs Ht Hc Hl].
    eexists. split; [apply captureConsoleLog_run; lia |].
    split; fields.
    + by apply session_inv_set_consoleLogs.
    + by apply timer_inv_set_consoleLogs.
    + done.
    + rewrite keep_last_length. lia.
  - destruct (SaveScreenshot_benign o data s) as (id & s2 & Hrun & Hb).
    exists s2. unfold mbind, M_bind. rewrite Hrun.
    split; [done | by apply (manager_inv_benign root s)].
  - destruct (navigateRun_benign o m s) as (out & s2 & Hrun & Hb).
    exists s2. unfold mbind, M_bind. rewrite Hrun.
    split; [done | by apply (manager_inv_after_get root o s)].
  - destruct (recentConsoleLogsRun_benign o m s) as (out & s2 & Hrun & Hb).
    exists s2. unfold mbind, M_bind. rewrite Hrun.
    split; [done | by apply (manager_inv_after_get root o s)].
  - destruct (clearConsoleLogsRun_benign o m s) as (out & s2 & Hrun & Hb).
    exists s2. unfold mbind, M_bind. rewrite Hrun.
    split; [done | by apply (manager_inv_after_get root o s)].
  - destruct (screenshotRun_benign o m s) as (out & s2 & Hrun & Hb).
    exists s2. unfold mbind, M_bind. rewrite Hrun.
    split; [done | by apply (manager_inv_after_get root o s)].
Qed.

Lemma manager_inv_run_ops root (ops : list Op) (s : State) :
  manager_inv root s ->
  ∃ s', run_ops ops s = Some s' ∧ manager_inv root s'.
Proof.
  revert s. induction ops as [| op ops IH]; intros s Hinv; [by exists s |].
  destruct (manager_inv_perform root op s Hinv) as (s1 & Hrun & Hinv1).
  cbn [run_ops]. rewrite Hrun. by apply IH.
Qed.

Lemma manager_inv_init root idle maxDim : manager_inv root (init root idle maxDim).
Proof.
  split; [apply session_inv_init | apply timer_inv_init | done | cbn; lia].
Qed.

(** No operation panics, and the manager stays well formed. From
    [NewBrowseTools], every sequence of operations of the manager (the
    three session calls, console captures, [SaveScreenshot] and the four
    tool entry points), with whatever inputs and answers of the outside
    world, runs to the end without a slice expression out of range. In the
    state it reaches the session is absent or full, the idle timer is set
    exactly when it is full, the capacity is still 100, at most 100 console
    events are stored, and every allocator or browser context that is not
    done is the one held. *)
Theorem manager_never_panics (root : context) (idle maxDim : Z) (ops : list Op) :
  ∃ s,
    run_ops ops (init root idle maxDim) = Some s
    ∧ (session_absent (tools s) ∨ session_full (tools s))
    ∧ (idleTimer (tools s) = None <-> session_absent (tools s))
    ∧ maxConsoleLogs (tools s) = 100%Z
    ∧ length (consoleLogs (tools s)) ≤ 100
    ∧ (∀ c, c ∈ created (world s) -> ¬ done_ctx (world s) c ->
            allocCtx (tools s) = Some c ∨ browserCtx (tools s) = Some c).
Proof.
  destruct (manager_inv_run_ops root ops _ (manager_inv_init root idle maxDim))
    as (s & Hrun & [Hs [Hset _] Hc Hl]).
  exists s. split; [done |].
  assert (session_absent (tools s) ∨ session_full (tools s)) as Hshape.
  { destruct (inv_shape _ _ Hs) as [Ha | (i & j & Hij & _)]; [by left | right].
    by exists i, j. }
  split; [done |]. split; [| split; [done | split; [done |]]].
  - rewrite Hset. split; [| by intros (_ & _ & Hb & _)].
    intros Hb. destruct Hshape as [Ha | (i & j & _ & _ & Hb' & _)]; [done | congruence].
  - intros c Hcr Hlive. destruct (inv_created _ _ Hs c Hcr); [done | assumption].
Qed.

End Reachability.

(** ** The statements run on the concrete library *)

(** The URLs named by the specification, through [GoModel.Parse]. *)
Example isPort80_examples :
  isPort80 (lib := GoModel.library) "http://host" = true
  ∧ isPort80 (lib := GoModel.library) "http://host:80/index.html" = true
  ∧ isPort80 (lib := GoModel.library) "https://host:80" = true
  ∧ isPort80 (lib := GoModel.library) "http://host:8080" = false
  ∧ isPort80 (lib := GoModel.library) "https://host" = false
  ∧ isPort80 (lib := GoModel.library) "http://host:port" = false
  ∧ isPort80 (lib := GoModel.library) "://host:80" = false.
Proof. repeat split; reflexivity. Qed.

(** Timeout strings through [GoModel.ParseDuration]. *)
Example parseTimeout_examples :
  parseTimeout (lib := GoModel.library) "" = (15 * Time.Second)%Z
  ∧ parseTimeout (lib := GoModel.library) "soon" = (15 * Time.Second)%Z
  ∧ parseTimeout (lib := GoModel.library) "30" = (15 * Time.Second)%Z
  ∧ parseTimeout (lib := GoModel.library) "30s" = (30 * Time.Second)%Z
  ∧ parseTimeout (lib := GoModel.library) "1m30s" = (90 * Time.Second)%Z
  ∧ parseTimeout (lib := GoModel.library) "1.5s" = (1500 * Time.Millisecond)%Z.
Proof. repeat split; reflexivity. Qed.

(** C4, run: [http://host:80/index.html] is refused on a fresh manager,
    which stays fresh. *)
Lemma navigate_rejects_port_80_witness :
  url_Parse (Library := GoModel.library) "http://host:80/index.html"
    = Ok (URL.mk "http" "" None "host:80" "/index.html" "" "")
  ∧ URL.Port (URL.mk "http" "" None "host:80" "/index.html" "" "") = "80"%string
  ∧ navigateRun (lib := GoModel.library) fine_answers
      (Ok (mkNavigateInput "http://host:80/index.html" "")) fresh_manager
    = (Some (ErrorToolOut port80_message), fresh_manager).
Proof.
  assert (url_Parse (Library := GoModel.library) "http://host:80/index.html"
          = Ok (URL.mk "http" "" None "host:80" "/index.html" "" "")) as Hparse
    by reflexivity.
  assert (URL.Port (URL.mk "http" "" None "host:80" "/index.html" "" "") = "80"%string)
    as Hport by reflexivity.
  split; [exact Hparse | split; [exact Hport |]].
  apply (proj1 (navigate_rejects_port_80 (lib := GoModel.library) fine_answers
                  (mkNavigateInput "http://host:80/index.html" "") fresh_manager
                  _ Hparse)).
  left. exact Hport.
Defined.

(** C10, run: a URL with a port that is not a number does not parse and
    gets past the port check. *)
Lemma navigate_passes_unparsed_and_https_witness :
  url_Parse (Library := GoModel.library) "http://host:port"
    = Err "parse: invalid port after host"
  ∧ isPort80 (lib := GoModel.library) "http://host:port" = false
  ∧ navigate_acquires (lib := GoModel.library) fine_answers
      (mkNavigateInput "http://host:port" "") fresh_manager.
Proof.
  assert (url_Parse (Library := GoModel.library) "http://host:port"
          = Err "parse: invalid port after host") as Hparse by reflexivity.
  split; [exact Hparse |].
  apply (proj1 (navigate_passes_unparsed_and_https (lib := GoModel.library)
                  fine_answers (mkNavigateInput "http://host:port" "") fresh_manager)
           _ Hparse).
Defined.

(** C8, run: ["soon"] is not a duration, ["45s"] is. *)
Lemma parseTimeout_default_witness :
  time_ParseDuration (Library := GoModel.library) "soon" = Err GoModel.invalid_duration
  ∧ parseTimeout (lib := GoModel.library) "soon" = 15000000000%Z
  ∧ time_ParseDuration (Library := GoModel.library) "45s" = Ok 45000000000%Z
  ∧ parseTimeout (lib := GoModel.library) "45s" = 45000000000%Z.
Proof.
  assert (time_ParseDuration (Library := GoModel.library) "soon"
          = Err GoModel.invalid_duration) as Hsoon by reflexivity.
  assert (time_ParseDuration (Library := GoModel.library) "45s"
          = Ok 45000000000%Z) as H45 by reflexivity.
  split; [exact Hsoon |]. split; [| split; [exact H45 |]].
  - exact (proj1 (parseTimeout_default (lib := GoModel.library) "soon") _ Hsoon).
  - exact (proj1 (proj2 (parseTimeout_default (lib := GoModel.library) "45s")) _ H45).
Defined.

Lemma logged_manager_logs : consoleLogs (tools logged_manager) = sample_events 5.
Proof. vm_compute. reflexivity. Qed.

(** C5, run: of five stored events, a limit of two yields the last two. *)
Lemma recent_logs_are_latest_witness :
  (0 < 2)%Z
  ∧ recentConsoleLogs 2 logged_manager
    = (Some (drop 3 (sample_events 5)), logged_manager).
Proof.
  assert (0 < 2)%Z as Hpos by lia.
  split; [exact Hpos |].
  destruct (recent_logs_are_latest (lib := GoModel.library) fine_answers
              logged_manager 2 Hpos) as (logs & Hrun & _ & _ & Hsuffix & _).
  rewrite Hrun. f_equal. f_equal.
  rewrite logged_manager_logs in Hsuffix.
  apply Hsuffix. reflexivity.
Defined.

Lemma clearedText_5 : clearedText 5 = "Cleared 5 console log entries."%string.
Proof. vm_compute. reflexivity. Qed.

(** C6, run: clearing after five events reports five and leaves none. *)
Lemma clear_reports_count_witness :
  GetBrowserContext (startup fine_answers) logged_manager
    = (Some (Ok (WithCancel 2 (WithCancel 1 Background))),
       snd (GetBrowserContext (startup fine_answers) logged_manager))
  ∧ fst (clearConsoleLogsRun fine_answers (Ok tt) logged_manager)
    = Some (TextOut "Cleared 5 console log entries.")
  ∧ consoleLogs (tools (snd (clearConsoleLogsRun fine_answers (Ok tt) logged_manager)))
    = [].
Proof.
  assert (GetBrowserContext (startup fine_answers) logged_manager
          = (Some (Ok (WithCancel 2 (WithCancel 1 Background))),
             snd (GetBrowserContext (startup fine_answers) logged_manager)))
    as Hget by (vm_compute; reflexivity).
  split; [exact Hget |].
  destruct (clear_reports_count fine_answers logged_manager)
    as (_ & _ & Hrun & _).
  destruct (Hrun _ _ Hget) as [Htext Hempty].
  split; [| exact Hempty].
  rewrite Htext, logged_manager_logs. cbn [fst].
  change (length (sample_events 5)) with 5. by rewrite clearedText_5.
Defined.

(** C7, run: with a full disk the identifier is empty and the registry
    stays empty. *)
Lemma SaveScreenshot_empty_iff_write_fails_witness :
  ∃ s', SaveScreenshot (saving disk_full) (captured disk_full) fresh_manager
          = (Some ""%string, s')
    ∧ screenshots (tools s') = ∅.
Proof.
  destruct (SaveScreenshot_empty_iff_write_fails (lib := GoModel.library) disk_full
              (mkScreenshotInput "" "") (captured disk_full) fresh_manager)
    as [(id & s' & Hrun & Hid & Hfail & _) _].
  assert (is_Some (writeFile (saving disk_full))) as Hw by (by eexists).
  exists s'. split.
  - rewrite Hrun. f_equal. f_equal. by apply Hid.
  - by rewrite (Hfail Hw).
Defined.

(** ** What one request does to the world *)

Lemma step_ok_intro (b b' : BrowseTools) (n n' : nat) (tr tail : list Effect) :
  idleTimeout b' = idleTimeout b ->
  (∀ d t, EAfterFunc d t ∈ tail -> d = idleTimeout b) ->
  (∀ p d i, EWithTimeout p d i ∈ tail -> ECancel i ∈ tail) ->
  (screenshots b' = screenshots b
   ∨ ∃ u t data,
       screenshots b' = <[UUID.to_string u := t]> (screenshots b)
       ∧ EWriteFile (GetScreenshotPath (UUID.to_string u)) data None ∈ tail) ->
  step_ok (mkState b (mkWorld n tr)) (mkState b' (mkWorld n' (tr ++ tail))).
Proof.
  intros Hidle Htimers Htimeouts Hreg.
  split; rewrite ?new_effects_app; fields; try done.
  - by exists tail.
  - intros id Hne. destruct Hreg as [Hsame | (u & t & data & Hins & Hw)].
    + by rewrite Hsame in Hne.
    + rewrite Hins in Hne. destruct (decide (UUID.to_string u = id)) as [<- | Hother].
      * split; [apply UUID_to_string_length | by exists data].
      * by rewrite lookup_insert_ne in Hne.
  - intros id Hsome. destruct Hreg as [-> | (u & t & data & -> & _)]; [done |].
    destruct (decide (UUID.to_string u = id)) as [<- | Hother].
    + rewrite lookup_insert_eq. by eexists.
    + by rewrite lookup_insert_ne.
Qed.

Lemma step_ok_refl (s : State) : step_ok s s.
Proof.
  destruct s as [b [n tr]].
  rewrite <- (app_nil_r tr) at 2.
  apply step_ok_intro; [done | | | by left]; intros; by elem_cases H.
Qed.

Lemma new_effects_trans (s s1 s2 : State) (t1 t2 : list Effect) :
  trace (world s1) = trace (world s) ++ t1 ->
  trace (world s2) = trace (world s1) ++ t2 ->
  new_effects s s1 = t1 ∧ new_effects s1 s2 = t2 ∧ new_effects s s2 = t1 ++ t2.
Proof.
  intros H1 H2. unfold new_effects. rewrite H2, H1.
  rewrite drop_app_length, drop_app_length.
  by rewrite <- app_assoc, drop_app_length.
Qed.

Lemma step_ok_trans (s s1 s2 : State) :
  step_ok s s1 -> step_ok s1 s2 -> step_ok s s2.
Proof.
  intros [Hi1 [t1 He1] Ht1 Hc1 Hw1 Hk1] [Hi2 [t2 He2] Ht2 Hc2 Hw2 Hk2].
  destruct (new_effects_trans s s1 s2 t1 t2 He1 He2) as (Hn1 & Hn2 & Hn).
  rewrite Hn1 in *. rewrite Hn2 in *.
  split; rewrite ?Hn.
  - congruence.
  - exists (t1 ++ t2). by rewrite He2, He1, app_assoc.
  - intros d t Hin. apply elem_of_app in Hin as [Hin | Hin].
    + by apply (Ht1 d t).
    + rewrite <- Hi1. by apply (Ht2 d t).
  - intros p d i Hin. apply elem_of_app. apply elem_of_app in Hin as [Hin | Hin].
    + left. by apply (Hc1 p d i).
    + right. by apply (Hc2 p d i).
  - intros id Hne.
    destruct (decide (screenshots (tools s1) !! id = screenshots (tools s) !! id))
      as [Heq | Hne1].
    + rewrite <- Heq in Hne. destruct (Hw2 id Hne) as (Hlen & data & Hw).
      split; [done |]. exists data. apply elem_of_app. by right.
    + destruct (Hw1 id Hne1) as (Hlen & data & Hw).
      split; [done |]. exists data. apply elem_of_app. by left.
  - intros id Hsome. by apply Hk2, Hk1.
Qed.

Lemma GetBrowserContext_step_ok (o : Startup) (s : State) :
  step_ok s (snd (GetBrowserContext o s)).
Proof.
  destruct (browserCtx (tools s)) as [c |] eqn:Hbc;
    [| destruct (startBrowser o) as [e |] eqn:Hst;
       [| destruct (setViewport o) as [e |] eqn:Hvp]].
  - rewrite (GetBrowserContext_existing _ _ _ Hbc). open_state s. fields.
    destruct tm; step_ok_with step_ok_intro.
  - rewrite (GetBrowserContext_start_fails _ _ _ Hbc Hst). open_state s. fields.
    step_ok_with step_ok_intro.
  - rewrite (GetBrowserContext_viewport_fails _ _ _ Hbc Hst Hvp). open_state s. fields.
    step_ok_with step_ok_intro.
  - rewrite (GetBrowserContext_starts _ _ Hbc Hst Hvp). open_state s. fields.
    destruct tm; step_ok_with step_ok_intro.
Qed.

Lemma closeBrowserLocked_step_ok (s : State) : step_ok s (snd (closeBrowserLocked s)).
Proof.
  rewrite closeBrowserLocked_run. open_state s. fields.
  destruct tm, bf, af; step_ok_with step_ok_intro.
Qed.

Lemma idleShutdown_step_ok (s : State) : step_ok s (snd (idleShutdown s)).
Proof.
  rewrite idleShutdown_run.
  destruct (browserCtx (tools s)); [apply closeBrowserLocked_step_ok | apply step_ok_refl].
Qed.

(** A capture changes the stored events and nothing else, even when it
    panics. *)
Lemma captureConsoleLog_only_logs (e : EventConsoleAPICalled) (s : State) :
  ∃ logs, snd (captureConsoleLog e s) = mkState (set_consoleLogs logs (tools s)) (world s).
Proof.
  open_state s. unfold captureConsoleLog, slice_from. run_M. setters.
  destruct (mx <? Z.of_nat (length (cl ++ [e])))%Z; [| by eexists].
  destruct ((0 <=? Z.of_nat (length (cl ++ [e])) - mx)%Z
            && (Z.of_nat (length (cl ++ [e])) - mx <=? Z.of_nat (length (cl ++ [e])))%Z);
    run_M; by eexists.
Qed.

Lemma captureConsoleLog_step_ok (e : EventConsoleAPICalled) (s : State) :
  step_ok s (snd (captureConsoleLog e s)).
Proof.
  destruct (captureConsoleLog_only_logs e s) as [logs ->].
  destruct s as [b [n tr]]. fields. rewrite <- (app_nil_r tr) at 2.
  apply step_ok_intro; [done | | | by left]; intros; by elem_cases H.
Qed.

Lemma SaveScreenshot_step_ok (o : Saving) (data : list Byte.byte) (s : State) :
  step_ok s (snd (SaveScreenshot o data s)).
Proof.
  destruct (writeFile o) as [e |] eqn:Hw.
  - rewrite (SaveScreenshot_write_fails _ _ _ _ Hw). destruct s as [b [n tr]]. fields.
    step_ok_with step_ok_intro.
  - rewrite (SaveScreenshot_written _ _ _ Hw). destruct s as [b [n tr]]. fields.
    step_ok_with step_ok_intro.
Qed.

Section RequestSteps.

Context {lib : Library} {http : Http}.

(** A tool call that first asks for the session: the step of the
    acquisition followed by the step of the rest. *)
Lemma after_get_step_ok (o : Startup) (s s2 : State) :
  step_ok (snd (GetBrowserContext o s)) s2 -> step_ok s s2.
Proof. apply step_ok_trans, GetBrowserContext_step_ok. Qed.

Lemma navigateRun_step_ok (o : Answers) (m : result navigateInput) (s : State) :
  step_ok s (snd (navigateRun o m s)).
Proof.
  destruct m as [input | e]; [| apply step_ok_refl].
  unfold navigateRun. destruct (isPort80 (nav_URL input)); [apply step_ok_refl |].
  apply (after_get_step_ok (startup o)). unfold mbind at 1, M_bind.
  destruct (GetBrowserContext (startup o) s) as [[[c | e] |] [b1 [n1 tr1]]];
    try apply step_ok_refl.
  run_M. fields. destruct (run o); rewrite <- !app_assoc; step_ok_with step_ok_intro.
Qed.

Lemma resizeRun_step_ok (o : Answers) (m : result resizeInput) (s : State) :
  step_ok s (snd (resizeRun o m s)).
Proof.
  destruct m as [input | e]; [| apply step_ok_refl].
  unfold resizeRun.
  destruct ((rs_Width input <=? 0) || (rs_Height input <=? 0))%Z; [apply step_ok_refl |].
  apply (after_get_step_ok (startup o)). unfold mbind at 1, M_bind.
  destruct (GetBrowserContext (startup o) s) as [[[c | e] |] [b1 [n1 tr1]]];
    try apply step_ok_refl.
  run_M. fields. destruct (run o); rewrite <- !app_assoc; step_ok_with step_ok_intro.
Qed.

Lemma recentConsoleLogsRun_step_ok
    (o : Answers) (m : result recentConsoleLogsInput) (s : State) :
  step_ok s (snd (recentConsoleLogsRun o m s)).
Proof.
  destruct m as [input | e]; [| apply step_ok_refl].
  unfold recentConsoleLogsRun.
  apply (after_get_step_ok (startup o)). unfold mbind at 1, M_bind.
  destruct (GetBrowserContext (startup o) s) as [[[c | e] |] s1];
    try apply step_ok_refl.
  unfold mbind, M_bind. rewrite recentConsoleLogs_run
    by (by destruct (0 <? Limit input)%Z eqn:Hl; [apply Z.ltb_lt |]).
  destruct (json_MarshalIndent _); apply step_ok_refl.
Qed.

Lemma clearConsoleLogsRun_step_ok (o : Answers) (m : result unit) (s : State) :
  step_ok s (snd (clearConsoleLogsRun o m s)).
Proof.
  destruct m as [input | e]; [| apply step_ok_refl].
  unfold clearConsoleLogsRun.
  apply (after_get_step_ok (startup o)). unfold mbind at 1, M_bind.
  destruct (GetBrowserContext (startup o) s) as [[[c | e] |] [b1 [n1 tr1]]];
    try apply step_ok_refl.
  unfold mbind, M_bind. rewrite clearConsoleLogs_run. fields.
  rewrite <- (app_nil_r tr1) at 2.
  apply step_ok_intro; [done | | | by left]; intros; by elem_cases H.
Qed.

Lemma screenshotRun_step_ok (o : Answers) (m : result screenshotInput) (s : State) :
  step_ok s (snd (screenshotRun o m s)).
Proof.
  destruct m as [input | e]; [| apply step_ok_refl].
  unfold screenshotRun.
  apply (after_get_step_ok (startup o)). unfold mbind at 1, M_bind.
  destruct (GetBrowserContext (startup o) s) as [[[c | e] |] [b1 [n1 tr1]]];
    try apply step_ok_refl.
  run_M. destruct (run o) as [e |]; [fields; rewrite <- !app_assoc; step_ok_with step_ok_intro |].
  destruct (writeFile (saving o)) as [e |] eqn:Hw.
  - rewrite (SaveScreenshot_write_fails _ _ _ _ Hw). cbn [String.eqb]. run_M. fields.
    rewrite <- !app_assoc. step_ok_with step_ok_intro.
  - rewrite (SaveScreenshot_written _ _ _ Hw).
    rewrite (proj2 (String.eqb_neq _ _) (UUID_to_string_nonempty _)). run_M. setters.
    destruct (if (0 <? maxImageDimension b1)%Z then _ else _)
      as [[[imageData format] resized] | e];
      fields; rewrite <- !app_assoc; step_ok_with step_ok_intro.
Qed.

(** [readImageRun] returns without a panic and leaves the manager and the
    world as they are. *)
Lemma readImageRun_pure (fs : FileAnswers) (m : result readImageInput) (s : State) :
  ∃ out, readImageRun fs m s = (Some out, s).
Proof.
  destruct m as [input | e]; [| by eexists].
  unfold readImageRun. destruct (notExist fs); [by eexists |].
  destruct (readFile fs) as [imageData | e]; [| by eexists].
  destruct (negb _); [by eexists |].
  destruct s as [b [n tr]]. run_M.
  destruct (if (0 <? maxImageDimension b)%Z then _ else _)
    as [[[imageData' format] resized] | e]; by eexists.
Qed.

Lemma perform_step_ok (op : Op) (s : State) : step_ok s (snd (perform op s)).
Proof.
  destruct op as [o | | | e | o data | o m | o m | o m | o m]; cbn [perform].
  - unfold mbind, M_bind.
    pose proof (GetBrowserContext_step_ok o s) as Hs.
    by destruct (GetBrowserContext o s) as [[r |] s1].
  - apply closeBrowserLocked_step_ok.
  - apply idleShutdown_step_ok.
  - apply captureConsoleLog_step_ok.
  - unfold mbind, M_bind.
    pose proof (SaveScreenshot_step_ok o data s) as Hs.
    by destruct (SaveScreenshot o data s) as [[r |] s1].
  - unfold mbind, M_bind.
    pose proof (navigateRun_step_ok o m s) as Hs.
    by destruct (navigateRun o m s) as [[r |] s1].
  - unfold mbind, M_bind.
    pose proof (recentConsoleLogsRun_step_ok o m s) as Hs.
    by destruct (recentConsoleLogsRun o m s) as [[r |] s1].
  - unfold mbind, M_bind.
    pose proof (clearConsoleLogsRun_step_ok o m s) as Hs.
    by destruct (clearConsoleLogsRun o m s) as [[r |] s1].
  - unfold mbind, M_bind.
    pose proof (screenshotRun_step_ok o m s) as Hs.
    by destruct (screenshotRun o m s) as [[r |] s1].
Qed.

Lemma serve_step_ok (r : Request) (s : State) : step_ok s (snd (serve r s)).
Proof.
  destruct r as [op | o m | fs m]; cbn [serve].
  - apply perform_step_ok.
  - unfold mbind, M_bind.
    pose proof (resizeRun_step_ok o m s) as Hs.
    by destruct (resizeRun o m s) as [[r |] s1].
  - unfold mbind, M_bind.
    destruct (readImageRun_pure fs m s) as [out ->]. apply step_ok_refl.
Qed.

Lemma run_requests_step_ok (rs : list Request) (s s' : State) :
  run_requests rs s = Some s' -> step_ok s s'.
Proof.
  revert s. induction rs as [| r rs IH]; intros s Hrun; cbn [run_requests] in Hrun.
  - injection Hrun as <-. apply step_ok_refl.
  - pose proof (serve_step_ok r s) as Hs.
    destruct (serve r s) as [[[] |] s1]; [| done].
    apply (step_ok_trans s s1); [exact Hs | by apply IH].
Qed.

End RequestSteps.

(** ** Every request keeps the manager well formed *)

Section RequestInvariants.

Context {lib : Library} {http : Http}.

Lemma resizeRun_rejects (o : Answers) (input : resizeInput) (s : State) :
  (rs_Width input ≤ 0 ∨ rs_Height input ≤ 0)%Z ->
  resizeRun o (Ok input) s = (Some (ErrorToolOut invalid_dimensions), s).
Proof.
  intros Hbad. unfold resizeRun.
  replace ((rs_Width input <=? 0) || (rs_Height input <=? 0))%Z with true; [done |].
  symmetry. apply orb_true_iff. destruct Hbad; [left | right]; by apply Z.leb_le.
Qed.

(** Past the check of the dimensions, [resizeRun] asks for the session and
    sets the viewport under the timeout of the call. *)
Lemma resizeRun_proceeds (o : Answers) (input : resizeInput) (s : State) :
  (0 < rs_Width input)%Z -> (0 < rs_Height input)%Z ->
  ∃ r s1,
    GetBrowserContext (startup o) s = (Some r, s1)
    ∧ match r with
      | Err e => resizeRun o (Ok input) s = (Some (ErrorToolOut e), s1)
      | Ok c =>
          resizeRun o (Ok input) s =
            (Some (match run o with
                   | Some e => ErrorToolOut e
                   | None => TextOut "done"
                   end),
             mkState (tools s1)
               (mkWorld (S (next (world s1)))
                  (trace (world s1)
                     ++ [EWithTimeout c (parseTimeout (rs_Timeout input)) (next (world s1));
                         ERun (WithCancel (next (world s1)) c)
                           [EmulateViewport (rs_Width input) (rs_Height input)] (run o);
                         ECancel (next (world s1))])))
      end.
Proof.
  intros Hw Hh. unfold resizeRun.
  replace ((rs_Width input <=? 0) || (rs_Height input <=? 0))%Z with false
    by (symmetry; apply orb_false_iff; split; apply Z.leb_gt; lia).
  destruct (GetBrowserContext_frame (startup o) s) as (r & s1 & Hget & _).
  exists r, s1. split; [exact Hget |].
  destruct r as [c | e]; unfold mbind at 1, M_bind; rewrite Hget; [| reflexivity].
  destruct s1 as [b1 [n1 tr1]]. run_M. fields.
  rewrite <- !app_assoc. by destruct (run o).
Qed.

Lemma resizeRun_benign (o : Answers) (m : result resizeInput) (s : State) :
  ∃ out s2, resizeRun o m s = (Some out, s2)
    ∧ (benign s s2
       ∨ ∃ r s1, GetBrowserContext (startup o) s = (Some r, s1) ∧ benign s1 s2).
Proof.
  destruct m as [input | e]; [| eexists _, _; split; [reflexivity | left; apply benign_refl]].
  destruct (Z.le_gt_cases (rs_Width input) 0) as [Hw | Hw].
  { eexists _, _. split; [apply resizeRun_rejects; by left | left; apply benign_refl]. }
  destruct (Z.le_gt_cases (rs_Height input) 0) as [Hh | Hh].
  { eexists _, _. split; [apply resizeRun_rejects; by right | left; apply benign_refl]. }
  destruct (resizeRun_proceeds o input s Hw Hh) as (r & s1 & Hget & Hrun).
  destruct r as [c | e].
  - eexists _, _. split; [exact Hrun |]. right. exists (Ok c), s1. split; [done |].
    destruct s1 as [b1 [n1 tr1]]. benign_now.
  - eexists _, _. split; [exact Hrun |]. right. exists (Err e), s1. split; [done |].
    apply benign_refl.
Qed.

Lemma manager_inv_serve root (r : Request) (s : State) :
  manager_inv root s ->
  ∃ s', serve r s = (Some tt, s') ∧ manager_inv root s'.
Proof.
  intros Hinv. destruct r as [op | o m | fs m]; cbn [serve].
  - by apply manager_inv_perform.
  - destruct (resizeRun_benign o m s) as (out & s2 & Hrun & Hb).
    exists s2. unfold mbind, M_bind. rewrite Hrun.
    split; [done | by apply (manager_inv_after_get root o s)].
  - destruct (readImageRun_pure fs m s) as [out Hrun].
    exists s. unfold mbind, M_bind. by rewrite Hrun.
Qed.

Lemma manager_inv_run_requests root (rs : list Request) (s : State) :
  manager_inv root s ->
  ∃ s', run_requests rs s = Some s' ∧ manager_inv root s' ∧ step_ok s s'.
Proof.
  intros Hinv.
  assert (∃ s', run_requests rs s = Some s' ∧ manager_inv root s') as (s' & Hrun & Hinv').
  { revert s Hinv. induction rs as [| r rs IH]; intros s Hinv; [by exists s |].
    destruct (manager_inv_serve root r s Hinv) as (s1 & Hrun & Hinv1).
    cbn [run_requests]. rewrite Hrun. by apply IH. }
  exists s'. split; [done |]. split; [done |]. by apply (run_requests_step_ok rs).
Qed.

Lemma new_effects_init root idle maxDim (s : State) :
  new_effects (init root idle maxDim) s = trace (world s).
Proof. reflexivity. Qed.

(** The idle timeout of a new manager is the one asked for when that is
    positive, and 30 minutes otherwise. *)
Lemma init_idleTimeout root idle maxDim :
  idleTimeout (tools (init root idle maxDim))
    = (if (idle <=? 0)%Z then 1800000000000 else idle)%Z
  ∧ (0 < idleTimeout (tools (init root idle maxDim)))%Z.
Proof.
  cbn. destruct (Z.leb_spec idle 0); split; try done; lia.
Qed.

(** X3. Every request runs, and the manager stays well formed. From
    [NewBrowseTools], every sequence of requests, now with [resizeRun] and
    [readImageRun] beside the operations of the manager, runs to the end
    whatever the inputs and the answers of the browser and of the file
    system. In the state it reaches the session is absent or full, every
    context that is not done is the one held, the idle timer is set exactly
    when the session is there and is the only timer pending, and at most
    100 console events are stored, 100 being still the capacity. *)
Theorem requests_keep_manager_well_formed
    (root : context) (idle maxDim : Z) (rs : list Request) :
  ∃ s,
    run_requests rs (init root idle maxDim) = Some s
    ∧ session_inv root s
    ∧ timer_inv s
    ∧ maxConsoleLogs (tools s) = 100%Z
    ∧ length (consoleLogs (tools s)) ≤ 100.
Proof.
  destruct (manager_inv_run_requests root rs _ (manager_inv_init root idle maxDim))
    as (s & Hrun & [Hs Ht Hcap Hlen] & _).
  by exists s.
Qed.

(** X4. Timers. From [NewBrowseTools idleTimeout], with any requests, inputs
    and answers: the idle timeout of the manager stays the configured one
    (30 minutes when a non-positive value was given), so it is always
    positive, and every timer the manager ever armed was armed with exactly
    this duration. *)
Theorem idle_timers_use_the_timeout
    (root : context) (idle maxDim : Z) (rs : list Request) :
  ∃ s,
    run_requests rs (init root idle maxDim) = Some s
    ∧ idleTimeout (tools s) = (if (idle <=? 0)%Z then 1800000000000 else idle)%Z
    ∧ (0 < idleTimeout (tools s))%Z
    ∧ ∀ d t, EAfterFunc d t ∈ trace (world s) -> d = idleTimeout (tools s).
Proof.
  destruct (manager_inv_run_requests root rs _ (manager_inv_init root idle maxDim))
    as (s & Hrun & _ & Hstep).
  destruct (init_idleTimeout root idle maxDim) as [Hval Hpos].
  exists s. rewrite (so_idleTimeout _ _ Hstep).
  split; [done |]. split; [done |]. split; [done |].
  intros d t Hin. apply (so_timers _ _ Hstep d t). by rewrite new_effects_init.
Qed.

(** X13. Registry. From [NewBrowseTools], with any requests, inputs and
    answers: every identifier recorded in the screenshot registry is a
    36-byte identifier whose file, at [GetScreenshotPath] of it, was
    written with success; so no record refers to a file whose write
    failed. *)
Theorem registry_references_written_files
    (root : context) (idle maxDim : Z) (rs : list Request) :
  ∃ s,
    run_requests rs (init root idle maxDim) = Some s
    ∧ ∀ id, is_Some (screenshots (tools s) !! id) ->
        String.length id = 36
        ∧ ∃ data, EWriteFile (GetScreenshotPath id) data None ∈ trace (world s).
Proof.
  destruct (manager_inv_run_requests root rs _ (manager_inv_init root idle maxDim))
    as (s & Hrun & _ & Hstep).
  exists s. split; [done |]. intros id [t Hid].
  rewrite <- (new_effects_init root idle maxDim s).
  apply (so_written _ _ Hstep). rewrite Hid. cbn. by rewrite lookup_empty.
Qed.

(** X14. Registry, growth. Whatever the state, no request removes a record of
    the screenshot registry: an identifier recorded before a sequence of
    requests is still recorded after it. *)
Theorem registry_never_forgets (rs : list Request) (s s' : State) (id : string) :
  run_requests rs s = Some s' ->
  is_Some (screenshots (tools s) !! id) ->
  is_Some (screenshots (tools s') !! id).
Proof.
  intros Hrun. apply (so_kept _ _ (run_requests_step_ok rs s s' Hrun)).
Qed.

(** X8. Timeout contexts. Whatever the state, every timeout context that a
    sequence of requests makes has been cancelled when the sequence
    returns: no tool leaves the context of its call behind. *)
Theorem timeouts_are_cancelled
    (rs : list Request) (s s' : State) (p : context) (d : Duration) (i : nat) :
  run_requests rs s = Some s' ->
  EWithTimeout p d i ∈ new_effects s s' ->
  ECancel i ∈ new_effects s s'.
Proof.
  intros Hrun. apply (so_timeouts _ _ (run_requests_step_ok rs s s' Hrun)).
Qed.


(** X16. Default limit. From [NewBrowseTools], with any requests, inputs and
    answers: a call of [recentConsoleLogsRun] with no limit, or with a limit
    that is not positive, lists every stored event, since the default limit
    of 100 is also the capacity of the buffer. *)
Theorem default_limit_lists_everything
    (root : context) (idle maxDim : Z) (rs : list Request)
    (o : Answers) (limit : Z) :
  (limit ≤ 0)%Z ->
  ∃ s,
    run_requests rs (init root idle maxDim) = Some s
    ∧ recentConsoleLogs 100 s = (Some (consoleLogs (tools s)), s)
    ∧ ∀ c s1 logData,
        GetBrowserContext (startup o) s = (Some (Ok c), s1) ->
        json_MarshalIndent (consoleLogs (tools s)) = Ok logData ->
        recentConsoleLogsRun o (Ok (mkRecentConsoleLogsInput limit)) s =
          (Some (TextOut (recentLogsText (consoleLogs (tools s)) logData)), s1).
Proof.
  intros Hlimit.
  destruct (manager_inv_run_requests root rs _ (manager_inv_init root idle maxDim))
    as (s & Hrun & [_ _ _ Hlen] & _).
  exists s. split; [done |].
  assert (∀ s0, length (consoleLogs (tools s0)) ≤ 100 ->
                recentConsoleLogs 100 s0 = (Some (consoleLogs (tools s0)), s0)) as Hall.
  { intros s0 Hlen0. rewrite recentConsoleLogs_run by lia.
    by rewrite keep_last_all by (cbn; lia). }
  split; [by apply Hall |].
  intros c s1 logData Hget Hjson.
  destruct (GetBrowserContext_frame (startup o) s) as (r & s1' & Hget' & Hcl & _).
  rewrite Hget in Hget'. injection Hget' as <- <-.
  unfold recentConsoleLogsRun. unfold mbind at 1, M_bind. rewrite Hget.
  cbn [Limit]. replace (0 <? limit)%Z with false by (symmetry; apply Z.ltb_ge; lia).
  unfold mbind, M_bind. rewrite Hall by (by rewrite Hcl).
  by rewrite Hcl, Hjson.
Qed.

End RequestInvariants.

(** ** The session across requests *)

Lemma same_session_refl (s : State) : same_session s s.
Proof. by repeat split. Qed.

Lemma same_session_trans (s1 s2 s3 : State) :
  same_session s1 s2 -> same_session s2 s3 -> same_session s1 s3.
Proof.
  intros (H1 & H2 & H3 & H4 & H5) (K1 & K2 & K3 & K4 & K5).
  repeat split; congruence.
Qed.

Lemma benign_same_session (s s' : State) : benign s s' -> same_session s s'.
Proof.
  intros [_ Hac Haf Hbc Hbf _ _ _ _ (tail & Htr & Hq)].
  repeat split; try done.
  destruct s as [b [n tr]], s' as [b' [n' tr']]. fields. subst tr'.
  rewrite (created_app n' n). by rewrite (quiet_created _ _ _ _ Hq), app_nil_r.
Qed.

(** With a session in place [GetBrowserContext] hands it out again and
    only moves the idle deadline. *)
Lemma GetBrowserContext_same_session (o : Startup) (s : State) (c : context) :
  browserCtx (tools s) = Some c ->
  fst (GetBrowserContext o s) = Some (Ok c)
  ∧ same_session s (snd (GetBrowserContext o s)).
Proof.
  intros Hbc. rewrite (GetBrowserContext_existing _ _ _ Hbc).
  split; [done |]. destruct s as [b [n tr]]. repeat split; fields; try done.
  rewrite (created_app _ n), (created_app _ n).
  replace (created (mkWorld n (EStop <$> olist (idleTimer b)))) with (@nil context)
    by (by destruct (idleTimer b)).
  by rewrite app_nil_r.
Qed.

Lemma after_get_same_session (o : Startup) (s s2 : State) (c : context) :
  browserCtx (tools s) = Some c ->
  benign s s2
  ∨ (∃ r s1, GetBrowserContext o s = (Some r, s1) ∧ benign s1 s2) ->
  same_session s s2.
Proof.
  intros Hbc [Hb | (r & s1 & Hget & Hb)]; [by apply benign_same_session |].
  destruct (GetBrowserContext_same_session o s c Hbc) as [_ Hsame].
  rewrite Hget in Hsame. apply (same_session_trans _ s1); [done |].
  by apply benign_same_session.
Qed.

Section SessionSteps.

Context {lib : Library} {http : Http}.

Lemma serve_same_session (r : Request) (s s' : State) (c : context) :
  browserCtx (tools s) = Some c ->
  is_teardown r = false ->
  serve r s = (Some tt, s') ->
  same_session s s'.
Proof.
  intros Hbc Hkeep.
  destruct r as [[o | | | e | o data | o m | o m | o m | o m] | o m | fs m];
    try discriminate Hkeep; cbn [serve perform]; unfold mbind, M_bind.
  - destruct (GetBrowserContext_same_session o s c Hbc) as [Hout Hsame].
    destruct (GetBrowserContext o s) as [[r |] s1]; [| done].
    intros [= <-]. exact Hsame.
  - destruct (captureConsoleLog_only_logs e s) as [logs Hs].
    intros Hrun. rewrite Hrun in Hs. cbn [snd] in Hs. subst s'.
    by repeat split.
  - destruct (SaveScreenshot_benign o data s) as (id & s2 & -> & Hb).
    intros [= <-]. by apply benign_same_session.
  - destruct (navigateRun_benign o m s) as (out & s2 & -> & Hb).
    intros [= <-]. by apply (after_get_same_session (startup o) _ _ c).
  - destruct (recentConsoleLogsRun_benign o m s) as (out & s2 & -> & Hb).
    intros [= <-]. by apply (after_get_same_session (startup o) _ _ c).
  - destruct (clearConsoleLogsRun_benign o m s) as (out & s2 & -> & Hb).
    intros [= <-]. by apply (after_get_same_session (startup o) _ _ c).
  - destruct (screenshotRun_benign o m s) as (out & s2 & -> & Hb).
    intros [= <-]. by apply (after_get_same_session (startup o) _ _ c).
  - destruct (resizeRun_benign o m s) as (out & s2 & -> & Hb).
    intros [= <-]. by apply (after_get_same_session (startup o) _ _ c).
  - destruct (readImageRun_pure fs m s) as [out ->].
    intros [= <-]. apply same_session_refl.
Qed.

(** X6. The session outlives the requests. When a browser context is held,
    requests other than [Close] and [idleShutdown] keep it, whatever their
    inputs and whatever the browser and the file system answer, failures of
    the browser included: the four session fields are the same afterwards,
    no context has been made, and [GetBrowserContext] hands out the same
    context again. *)
Theorem session_survives_requests
    (rs : list Request) (s s' : State) (c : context) :
  browserCtx (tools s) = Some c ->
  forallb (λ r, negb (is_teardown r)) rs = true ->
  run_requests rs s = Some s' ->
  same_session s s' ∧ ∀ o, fst (GetBrowserContext o s') = Some (Ok c).
Proof.
  intros Hbc Hkeep Hrun.
  assert (same_session s s') as Hsame.
  { revert s Hbc Hrun. induction rs as [| r rs IH]; intros s Hbc Hrun.
    - injection Hrun as <-. apply same_session_refl.
    - cbn [forallb] in Hkeep. apply andb_true_iff in Hkeep as [Hr Hrs].
      apply negb_true_iff in Hr. cbn [run_requests] in Hrun.
      destruct (serve r s) as [[[] |] s1] eqn:Hserve; [| done].
      pose proof (serve_same_session r s s1 c Hbc Hr Hserve) as H1.
      apply (same_session_trans _ s1); [done |].
      apply IH; [done | | done].
      destruct H1 as (_ & _ & -> & _). exact Hbc. }
  split; [done |]. intros o.
  apply GetBrowserContext_same_session.
  destruct Hsame as (_ & _ & -> & _). exact Hbc.
Qed.

End SessionSteps.

(** X7. Teardown twice. After [Close], in any state, a second [Close] and an
    [idleShutdown] change nothing and do nothing: no timer is stopped and
    no cancel function is called again. The same holds for [idleShutdown]
    after [idleShutdown]. *)
Theorem teardown_is_idempotent (s : State) :
  Close (snd (Close s)) = (Some tt, snd (Close s))
  ∧ idleShutdown (snd (Close s)) = (Some tt, snd (Close s))
  ∧ idleShutdown (snd (idleShutdown s)) = (Some tt, snd (idleShutdown s)).
Proof.
  assert (∀ b n tr,
            allocCtx b = None -> allocCancel b = None -> browserCtx b = None ->
            browserCtxCancel b = None -> idleTimer b = None ->
            closeBrowserLocked (mkState b (mkWorld n tr))
              = (Some tt, mkState b (mkWorld n tr))) as Hnop.
  { intros b' n' tr' H1 H2 H3 H4 H5. rewrite closeBrowserLocked_run. fields.
    rewrite H2, H4, H5. cbn [olist fmap list_fmap app]. rewrite app_nil_r.
    destruct b'. fields. by subst. }
  unfold Close. rewrite (closeBrowserLocked_run s). cbn [snd].
  split; [by apply Hnop |]. split; [by rewrite idleShutdown_run |].
  rewrite (idleShutdown_run s). destruct (browserCtx (tools s)) eqn:Hbc.
  - rewrite (closeBrowserLocked_run s). cbn [snd]. by rewrite idleShutdown_run.
  - cbn [snd]. by rewrite idleShutdown_run, Hbc.
Qed.

(** ** The tools for the viewport and for image files *)

Lemma prefix_split (p s : string) :
  String.prefix p s = true -> ∃ t, s = p +:+ t.
Proof.
  revert s. induction p as [| a p IH]; intros s Hp; [by exists s |].
  destruct s as [| b s]; [done |]. cbn in Hp.
  destruct (Ascii.ascii_dec a b) as [-> | Hne]; [| done].
  destruct (IH s Hp) as [t ->]. by exists t.
Qed.

(** Cutting a prefix that is there and putting it back gives the string. *)
Lemma TrimPrefix_restore (s p : string) :
  Strings.HasPrefix s p = true -> p +:+ strings_TrimPrefix s p = s.
Proof.
  intros Hp. unfold strings_TrimPrefix. rewrite Hp.
  destruct (prefix_split p s Hp) as [t ->]. by rewrite from_append.
Qed.

Section MoreToolTheorems.

Context {lib : Library} {http : Http}.

(** X9. The viewport. [resizeRun] refuses a width or a height that is not
    positive before it asks for the browser: the manager and the world are
    untouched, so no browser is started for such a call. With positive
    dimensions it asks for the session; an error of the acquisition is
    returned as it is, and otherwise exactly one action, the viewport of the
    given size, is run under the timeout of the call, whose context is
    cancelled before the tool returns. *)
Theorem resizeRun_checks_dimensions (o : Answers) (input : resizeInput) (s : State) :
  ((rs_Width input ≤ 0 ∨ rs_Height input ≤ 0)%Z ->
   resizeRun o (Ok input) s = (Some (ErrorToolOut invalid_dimensions), s))
  ∧ ((0 < rs_Width input)%Z -> (0 < rs_Height input)%Z ->
     ∃ r s1,
       GetBrowserContext (startup o) s = (Some r, s1)
       ∧ match r with
         | Err e => resizeRun o (Ok input) s = (Some (ErrorToolOut e), s1)
         | Ok c =>
             ∃ s2,
               resizeRun o (Ok input) s =
                 (Some (match run o with
                        | Some e => ErrorToolOut e
                        | None => TextOut "done"
                        end), s2)
               ∧ tools s2 = tools s1
               ∧ new_effects s1 s2 =
                   [EWithTimeout c (parseTimeout (rs_Timeout input)) (next (world s1));
                    ERun (WithCancel (next (world s1)) c)
                      [EmulateViewport (rs_Width input) (rs_Height input)] (run o);
                    ECancel (next (world s1))]
         end).
Proof.
  split; [apply resizeRun_rejects |].
  intros Hw Hh.
  destruct (resizeRun_proceeds o input s Hw Hh) as (r & s1 & Hget & Hrun).
  exists r, s1. split; [done |]. destruct r as [c | e]; [| done].
  eexists. split; [exact Hrun |]. split; [done |].
  unfold new_effects. cbn [world trace]. by rewrite drop_app_length.
Qed.

(** X10. Image files, the manager. [readImageRun] always returns and leaves the
    manager and the world as they are: unlike the other tools it never asks
    for the browser, so it neither starts a session nor moves the idle
    deadline. It answers without an error only for a file that exists, was
    read, and whose bytes are detected as an image. *)
Theorem readImageRun_leaves_browser_alone
    (fs : FileAnswers) (m : result readImageInput) (s : State) :
  ∃ out,
    readImageRun fs m s = (Some out, s)
    ∧ (ToolError out = None ->
       ∃ input imageData,
         m = Ok input ∧ notExist fs = false ∧ readFile fs = Ok imageData
         ∧ Strings.HasPrefix (http_DetectContentType imageData) "image/" = true).
Proof.
  destruct m as [input | e]; [| by eexists].
  unfold readImageRun.
  destruct (notExist fs) eqn:Hne; [by eexists |].
  destruct (readFile fs) as [imageData | e] eqn:Hrd; [| by eexists].
  destruct (Strings.HasPrefix (http_DetectContentType imageData) "image/") eqn:Hp;
    [| by eexists].
  cbn [negb]. destruct s as [b [n tr]]. run_M. fields.
  destruct (0 <? maxImageDimension b)%Z.
  - destruct (imageutil_ResizeImage imageData (maxImageDimension b))
      as [[[data' format] resized] | e]; eexists; (split; [reflexivity |]).
    + intros _. by exists input, imageData.
    + done.
  - eexists. split; [reflexivity |]. intros _. by exists input, imageData.
Qed.

(** X11. Image files, no limit. When the manager has no positive limit on
    image dimensions, [readImageRun] returns the bytes of an image file as
    they were read, under the media type that was detected: the prefix cut
    from the detected type is put back unchanged. *)
Theorem readImageRun_unresized
    (fs : FileAnswers) (input : readImageInput) (s : State) (imageData : list Byte.byte) :
  notExist fs = false ->
  readFile fs = Ok imageData ->
  Strings.HasPrefix (http_DetectContentType imageData) "image/" = true ->
  (maxImageDimension (tools s) ≤ 0)%Z ->
  readImageRun fs (Ok input) s =
    (Some (mkToolOut
             [Text ("Image from " +:+ ri_Path input +:+ " (type: "
                      +:+ http_DetectContentType imageData +:+ ")");
              Media (http_DetectContentType imageData) imageData]
             None None),
     s).
Proof.
  intros Hne Hrd Hp Hmax. unfold readImageRun. rewrite Hne, Hrd, Hp. cbn [negb].
  destruct s as [b [n tr]]. fields. run_M. fields.
  replace (0 <? maxImageDimension b)%Z with false by (symmetry; apply Z.ltb_ge; lia).
  rewrite (TrimPrefix_restore _ _ Hp).
  replace (")" +:+ "")%string with ")"%string by reflexivity.
  reflexivity.
Qed.

(** X12. Screenshots, order of the steps. Once the session is acquired, the
    capture succeeded and the file was written, the screenshot is recorded
    in the registry under the new identifier, with the captured bytes on
    disk at [GetScreenshotPath] of it, whether or not the resizing that
    follows succeeds: when it fails the tool answers with the error
    [failed to resize screenshot] while file and record stay; when it
    succeeds the display of the answer names this identifier and this
    path. *)
Theorem screenshotRun_saves_before_resizing
    (o : Answers) (input : screenshotInput) (s s1 : State) (c : context) :
  GetBrowserContext (startup o) s = (Some (Ok c), s1) ->
  run o = None ->
  writeFile (saving o) = None ->
  let id := UUID.to_string (uuid_New (saving o)) in
  ∃ out s2,
    screenshotRun o (Ok input) s = (Some out, s2)
    ∧ screenshots (tools s2) !! id = Some (time_Now (saving o))
    ∧ EWriteFile (GetScreenshotPath id) (captured o) None ∈ new_effects s1 s2
    ∧ match (if (0 <? maxImageDimension (tools s))%Z
             then imageutil_ResizeImage (captured o) (maxImageDimension (tools s))
             else Ok (captured o, "png"%string, false)) with
      | Err e => out = ErrorToolOut (wrap "failed to resize screenshot" e)
      | Ok (imageData, format, resized) =>
          ToolError out = None
          ∧ ToolDisplay out
              = Some (mkDisplay "screenshot" id (GetScreenshotPath id) (shot_Selector input))
          ∧ ∃ description,
              LLMContent out = [Text description; Media ("image/" +:+ format) imageData]
      end.
Proof.
  intros Hget Hrun Hw id.
  destruct (GetBrowserContext_frame (startup o) s) as (r & s1' & Hget' & _ & _ & _ & Hdim).
  rewrite Hget in Hget'. injection Hget' as <- <-. rewrite <- Hdim.
  unfold screenshotRun. unfold mbind at 1, M_bind. rewrite Hget.
  destruct s1 as [b1 [n1 tr1]]. fields.
  unfold mbind at 1, M_bind. unfold context_WithTimeout at 1.
  run_M. fields. rewrite Hrun.
  rewrite (SaveScreenshot_written _ _ _ Hw). fields.
  destruct (String.eqb_neq (UUID.to_string (uuid_New (saving o))) "") as [_ Hne].
  rewrite (Hne (UUID_to_string_nonempty _)).
  run_M. setters.
  destruct (if (0 <? maxImageDimension b1)%Z
            then imageutil_ResizeImage (captured o) (maxImageDimension b1)
            else Ok (captured o, "png"%string, false))
    as [[[imageData format] resized] | e];
    eexists _, _; (split; [reflexivity |]); fields;
      (split; [by rewrite lookup_insert_eq |]);
      (split; [unfold new_effects; fields;
               rewrite <- ?app_assoc, drop_app_length; elem_now |]).
  - split; [done |]. split; [done |]. by eexists.
  - done.
Qed.

End MoreToolTheorems.

(** ** Identifiers of screenshots *)









(** ** The requests, run *)

(** A record made by one screenshot is still there after a teardown and a
    screenshot that could not be written. *)
Lemma registry_never_forgets_witness :
  ∃ s',
    run_requests (lib := GoModel.library) (http := png_sniffer)
      [ReqOp OpClose; ReqOp (OpScreenshot disk_full (Ok (mkScreenshotInput "" "")))]
      (snd (SaveScreenshot (saving shot_answers) [] fresh_manager)) = Some s'
    ∧ is_Some (screenshots (tools s') !! "12340000-0000-0000-0000-000000000000").
Proof.
  eexists. split; [vm_compute; reflexivity |].
  apply (registry_never_forgets (lib := GoModel.library) (http := png_sniffer)
           [ReqOp OpClose; ReqOp (OpScreenshot disk_full (Ok (mkScreenshotInput "" "")))]
           (snd (SaveScreenshot (saving shot_answers) [] fresh_manager))).
  - vm_compute. reflexivity.
  - exists 7%Z. vm_compute. reflexivity.
Defined.

(** A navigation with a timeout of five seconds makes one timeout context
    and cancels it. *)
Lemma timeouts_are_cancelled_witness :
  ∃ s',
    run_requests (lib := GoModel.library) (http := png_sniffer)
      [ReqOp (OpNavigate fine_answers (Ok (mkNavigateInput "https://example.com" "5s")))]
      fresh_manager = Some s'
    ∧ EWithTimeout (WithCancel 2 (WithCancel 1 Background)) 5000000000%Z 4
        ∈ new_effects fresh_manager s'
    ∧ ECancel 4 ∈ new_effects fresh_manager s'.
Proof.
  eexists. split; [vm_compute; reflexivity |].
  match goal with
  | |- ?A ∧ _ => assert A as Hin by (vm_compute; repeat constructor)
  end.
  split; [exact Hin |].
  eapply (timeouts_are_cancelled (lib := GoModel.library) (http := png_sniffer)
           [ReqOp (OpNavigate fine_answers (Ok (mkNavigateInput "https://example.com" "5s")))]
           fresh_manager); [vm_compute; reflexivity | exact Hin].
Defined.

(** A session outlives a navigation that fails, a change of the viewport,
    a console event and the reading of an image file. *)
Lemma session_survives_requests_witness :
  ∃ s',
    browserCtx (tools live_manager) = Some (WithCancel 2 (WithCancel 1 Background))
    ∧ run_requests (lib := GoModel.library) (http := png_sniffer)
        [ReqOp (OpNavigate page_down (Ok (mkNavigateInput "https://example.com" "")));
         ReqResize fine_answers (Ok (mkResizeInput 800%Z 600%Z ""));
         ReqOp (OpCapture (mkEvent "log" [] 1%Z));
         ReqReadImage png_file (Ok (mkReadImageInput "/tmp/a.png" ""))]
        live_manager = Some s'
    ∧ same_session live_manager s'
    ∧ ∀ o, fst (GetBrowserContext o s')
             = Some (Ok (WithCancel 2 (WithCancel 1 Background))).
Proof.
  eexists. split; [vm_compute; reflexivity |].
  split; [vm_compute; reflexivity |].
  eapply (session_survives_requests (lib := GoModel.library) (http := png_sniffer)
            [ReqOp (OpNavigate page_down (Ok (mkNavigateInput "https://example.com" "")));
             ReqResize fine_answers (Ok (mkResizeInput 800%Z 600%Z ""));
             ReqOp (OpCapture (mkEvent "log" [] 1%Z));
             ReqReadImage png_file (Ok (mkReadImageInput "/tmp/a.png" ""))]
            live_manager); vm_compute; reflexivity.
Defined.

(** With no limit, the six bytes of a PNG file come back as they are. *)
Lemma readImageRun_unresized_witness :
  readImageRun (lib := GoModel.library) (http := png_sniffer)
    png_file (Ok (mkReadImageInput "/tmp/a.png" "")) fresh_manager
  = (Some (mkToolOut
             [Text "Image from /tmp/a.png (type: image/png)";
              Media "image/png"
                [Byte.x89; Byte.x50; Byte.x4e; Byte.x47; Byte.x0d; Byte.x0a]]
             None None),
     fresh_manager).
Proof.
  apply (readImageRun_unresized (lib := GoModel.library) (http := png_sniffer)
           png_file (mkReadImageInput "/tmp/a.png" "") fresh_manager
           [Byte.x89; Byte.x50; Byte.x4e; Byte.x47; Byte.x0d; Byte.x0a]);
    vm_compute; (reflexivity || discriminate).
Defined.

(** A screenshot whose resizing fails: the tool answers with the error,
    and the screenshot is on disk and in the registry. *)
Lemma screenshotRun_saves_before_resizing_witness :
  ∃ s2,
    screenshotRun (lib := no_decoder) shot_answers (Ok (mkScreenshotInput "" ""))
      limited_manager
    = (Some (ErrorToolOut "failed to resize screenshot: image: unknown format"), s2)
    ∧ screenshots (tools s2) !! "12340000-0000-0000-0000-000000000000" = Some 7%Z.
Proof.
  destruct (screenshotRun_saves_before_resizing (lib := no_decoder)
              shot_answers (mkScreenshotInput "" "") limited_manager
              (snd (GetBrowserContext all_fine limited_manager))
              (WithCancel 2 (WithCancel 1 Background)))
    as (out & s2 & Hrun & Hreg & _ & Hout);
    [vm_compute; reflexivity | reflexivity | reflexivity |].
  vm_compute in Hout. subst out. exists s2. split; [exact Hrun | exact Hreg].
Defined.

(** With no limit given, all of the five stored events are listed. *)
Lemma default_limit_lists_everything_witness :
  ∃ s,
    run_requests (lib := GoModel.library) (http := png_sniffer)
      (ReqOp <$> (OpCapture <$> sample_events 5)) (init Background 0%Z 0%Z) = Some s
    ∧ recentConsoleLogs 100 s = (Some (consoleLogs (tools s)), s)
    ∧ ∀ c s1 logData,
        GetBrowserContext (startup fine_answers) s = (Some (Ok c), s1) ->
        json_MarshalIndent (Library := GoModel.library) (consoleLogs (tools s)) = Ok logData ->
        recentConsoleLogsRun (lib := GoModel.library) fine_answers
          (Ok (mkRecentConsoleLogsInput 0%Z)) s =
          (Some (TextOut (recentLogsText (consoleLogs (tools s)) logData)), s1).
Proof.
  apply (default_limit_lists_everything (lib := GoModel.library) (http := png_sniffer)
           Background 0%Z 0%Z (ReqOp <$> (OpCapture <$> sample_events 5)) fine_answers 0%Z).
  lia.
Defined.


(** A viewport of width zero is refused and nothing happens. *)
Lemma resizeRun_checks_dimensions_witness :
  resizeRun (lib := GoModel.library) fine_answers (Ok (mkResizeInput 0%Z 600%Z "")) fresh_manager
  = (Some (ErrorToolOut "invalid dimensions: width and height must be positive"),
     fresh_manager).
Proof.
  apply (proj1 (resizeRun_checks_dimensions (lib := GoModel.library)
                  fine_answers (mkResizeInput 0%Z 600%Z "") fresh_manager)).
  left. cbn. lia.
Defined.
